(** * Conversational code-generation orchestrator

    A shallow embedding of [submitUserInput] / [processEvents] (the server
    action of the code-generation page) and of the [writer] agent
    (src/lib/code-gen/agents/writer.tsx), with the properties of their
    streaming protocol.

    Every effect the code performs on a streamable (the UI stream, the
    [isGenerating] and [isCollapsed] flags, the code value stream), on the
    mutable AI state and every agent invocation is recorded, in program
    order, in one chronological trace.  The [messages] array and the AI
    state are kept in the world state together with the aliasing between
    them ([messages] is the very array returned by [aiState.get()]). *)

From Stdlib Require Import List String Ascii Bool Arith Lia.
Import ListNotations.

Local Infix "+++" := String.append (at level 60, right associativity).

(* ================================================================= *)
(** ** Data model *)

Inductive Role := user | assistant | system | function | tool.

Record ToolCallPart := mkToolCall {
  toolCallId : string;
  toolName : string;
  toolArgs : string
}.

Record ToolResultPart := mkToolResult {
  resultCallId : string;
  resultName : string;
  resultValue : string
}.

(** Structured message content, as in
    [content: [{ type: "text", text: fullResponse }, ...toolCalls]]. *)
Inductive Part :=
| TextPart (text : string)
| CallPart (tc : ToolCallPart)
| ResultPart (tr : ToolResultPart).

Inductive Content :=
| Text (s : string)
| Parts (ps : list Part).

Record CoreMessage := mkMessage {
  role : Role;
  content : Content
}.

(** The parts of [result.fullStream] the [switch] of [writer] tells apart;
    [OtherDelta] stands for every part type without a [case] (finish,
    step-finish, ...). *)
Inductive Delta :=
| TextDelta (textDelta : string)
| ToolCallDelta (tc : ToolCallPart)
| ToolResultDelta (tr : ToolResultPart)
| ErrorDelta
| OtherDelta.

(** Renderable nodes handed to the UI stream.  [AgentNode] is content
    produced by an agent whose source is outside this development. *)
Inductive UiNode :=
| Spinner (message : string)
| CodeSection
| GeneratingSpinner
| FollowupSection
| NullNode
| AgentNode (id : nat).

Inductive StreamId := UiStream | IsGenerating | IsCollapsed | CodeStream.

Inductive SVal :=
| VBool (b : bool)
| VString (s : string)
| VNode (n : UiNode).

Inductive StreamOp :=
| OpCreate (init : option SVal)
| OpUpdate (v : SVal)
| OpAppend (v : SVal)
| OpDone (final : option SVal).

Inductive Agent := RequirementsManager | Inquire | Writer | AiSuggestor.

Inductive Event :=
| EvStream (s : StreamId) (op : StreamOp)
| EvAiUpdate (st : list CoreMessage)
| EvAiDone (st : list CoreMessage)
| EvCall (a : Agent) (msgs : list CoreMessage)
| EvReturn (a : Agent).

(** [{ object: { next } }]: the structured result of the decision agent. *)
Record Action := mkAction { next : string }.

(** The object returned by [inquire]; [question] may be [undefined]. *)
Record Inquiry := mkInquiry { question : option string }.

(** What an agent outside this development may do to the UI stream. *)
Inductive AgentUiOp :=
| AgentUpdate (n : UiNode)
| AgentAppend (n : UiNode).

Definition FormData := list (string * string).

(** The current AI state is either the array bound to [messages] itself
    (before any [aiState.update]) or an array of its own. *)
Inductive AiRef :=
| SameArray
| OwnArray (st : list CoreMessage).

Record World := mkWorld {
  messages : list CoreMessage;
  aiState : AiRef;
  streamCalls : nat;
  trace : list Event
}.

(** The collaborators of one exchange.

    Modelled from the spec: [requirementsManager], [inquire] and
    [aiSuggestor] (lib/code-gen/agents) and the model behind [streamText]
    are not part of the sources.  Following sections 4.3, 4.4 and 4.6 a
    decision agent returns a decision or nothing, the inquiry agent streams
    into the UI node and returns the question object or nothing, the
    suggestion agent streams into the UI node; none of them closes a
    stream or writes to the conversation.  [fullStream k] is the event
    sequence of the [k]-th call of [streamText] in the exchange. *)
Record Env := mkEnv {
  decisionResult : list CoreMessage -> option Action;
  inquiryUi : list CoreMessage -> list AgentUiOp;
  inquiryResult : list CoreMessage -> option Inquiry;
  suggestorUi : list CoreMessage -> list AgentUiOp;
  fullStream : nat -> list Delta;
  stringifyEntries : FormData -> string
}.

(* ================================================================= *)
(** ** A small state monad over the world *)

Definition M (A : Type) : Type := World -> A * World.

Definition ret {A} (a : A) : M A := fun w => (a, w).

Definition bind {A B} (m : M A) (k : A -> M B) : M B :=
  fun w => let (a, w') := m w in k a w'.

Notation "x <- m ;; k" := (bind m (fun x => k))
  (at level 61, m at next level, right associativity).
Notation "m ;;; k" := (bind m (fun _ => k))
  (at level 61, right associativity).

Definition emit (e : Event) : M unit :=
  fun w => (tt, mkWorld (messages w) (aiState w) (streamCalls w) (trace w ++ [e])).

Definition emits (es : list Event) : M unit :=
  fun w => (tt, mkWorld (messages w) (aiState w) (streamCalls w) (trace w ++ es)).

Definition getMessages : M (list CoreMessage) := fun w => (messages w, w).

(** [messages.push(m)] *)
Definition messages_push (m : CoreMessage) : M unit :=
  fun w => (tt, mkWorld (messages w ++ [m]) (aiState w) (streamCalls w) (trace w)).

Definition currentAi (w : World) : list CoreMessage :=
  match aiState w with
  | SameArray => messages w
  | OwnArray st => st
  end.

(** [aiState.get()] *)
Definition aiState_get : M (list CoreMessage) := fun w => (currentAi w, w).

(** [aiState.update(st)] *)
Definition aiState_update (st : list CoreMessage) : M unit :=
  fun w => (tt, mkWorld (messages w) (OwnArray st) (streamCalls w)
                        (trace w ++ [EvAiUpdate st])).

(** [aiState.done(st)] *)
Definition aiState_done (st : list CoreMessage) : M unit :=
  fun w => (tt, mkWorld (messages w) (OwnArray st) (streamCalls w)
                        (trace w ++ [EvAiDone st])).

Definition stream_op (s : StreamId) (op : StreamOp) : M unit :=
  emit (EvStream s op).

(* ================================================================= *)
(** ** JavaScript helpers *)

(** Truthiness of a string: only the empty string is falsy. *)
Definition truthy (s : string) : bool := negb (String.length s =? 0).

(** [`${v}`] for a value that is a string or [undefined]. *)
Definition template (v : option string) : string :=
  match v with
  | Some s => s
  | None => "undefined"
  end.

(** [messages.splice(0, Math.max(messages.length - maxMessages, 0))] *)
Definition maxMessages : nat := 10.

Definition splice_front (msgs : list CoreMessage) : list CoreMessage :=
  skipn (Nat.max (List.length msgs - maxMessages) 0) msgs.

(** [formData.get("input")] *)
Fixpoint FormData_get (key : string) (fd : FormData) : option string :=
  match fd with
  | [] => None
  | (k, v) :: rest => if String.eqb k key then Some v else FormData_get key rest
  end.

Definition dquote : string := String "034"%char EmptyString.

(** The template literal [`{"action": "skip"}`]. *)
Definition skipSentinel : string :=
  "{" +++ dquote +++ "action" +++ dquote +++ ": " +++ dquote +++ "skip"
      +++ dquote +++ "}".

(* ================================================================= *)
(** ** The writer agent (src/lib/code-gen/agents/writer.tsx) *)

(** The local variables of [writer] that the loop over the stream
    changes. *)
Record Locals := mkLocals {
  fullResponse : string;
  hasError : bool;
  toolCalls : list ToolCallPart;
  toolResponses : list ToolResultPart
}.

Definition locals0 : Locals := mkLocals EmptyString false [] [].

(** [`\nError occurred while executing the tool`] *)
Definition errorNotice : string :=
  String "010"%char "Error occurred while executing the tool".

(** One iteration of [for await (const delta of result.fullStream)]: the
    new locals and the stream operations issued, in order.  The
    ["tool-result"] case is commented out in the source, so such a part
    falls through the [switch]. *)
Definition on_delta (delta : Delta) (l : Locals) : Locals * list Event :=
  match delta with
  | TextDelta textDelta =>
      if truthy textDelta then
        let first :=
          if (String.length (fullResponse l) =? 0)
             && (0 <? String.length textDelta)
          then [EvStream UiStream (OpUpdate (VNode CodeSection));
                EvStream UiStream (OpAppend (VNode GeneratingSpinner))]
          else [] in
        let fr := fullResponse l +++ textDelta in
        (mkLocals fr (hasError l) (toolCalls l) (toolResponses l),
         first ++ [EvStream CodeStream (OpUpdate (VString fr))])
      else (l, [])
  | ToolCallDelta tc =>
      (mkLocals (fullResponse l) (hasError l) (toolCalls l ++ [tc])
                (toolResponses l), [])
  | ToolResultDelta _ => (l, [])
  | ErrorDelta =>
      (mkLocals (fullResponse l +++ errorNotice) true (toolCalls l)
                (toolResponses l), [])
  | OtherDelta => (l, [])
  end.

Fixpoint for_await (ds : list Delta) (l : Locals) : Locals * list Event :=
  match ds with
  | [] => (l, [])
  | delta :: rest =>
      let (l1, out1) := on_delta delta l in
      let (l2, out2) := for_await rest l1 in
      (l2, out1 ++ out2)
  end.

(** The turns [writer] pushes onto [messages] once the stream has ended. *)
Definition assistantTurn (l : Locals) : CoreMessage :=
  mkMessage assistant
            (Parts (TextPart (fullResponse l) :: map CallPart (toolCalls l))).

Definition toolTurn (l : Locals) : CoreMessage :=
  mkMessage tool (Parts (map ResultPart (toolResponses l))).

Inductive Completion := Finished | Pending.

Section Exchange.

Variable E : Env.

(** [streamText({ ..., messages })]: the next event sequence of the model. *)
Definition streamText : M (list Delta) :=
  fun w => (fullStream E (streamCalls w),
            mkWorld (messages w) (aiState w) (S (streamCalls w)) (trace w)).

Definition writer : M Locals :=
  ds <- streamText ;;
  let (l, out) := for_await ds locals0 in
  emits out ;;;
  stream_op UiStream (OpUpdate (VNode NullNode)) ;;;
  messages_push (assistantTurn l) ;;;
  (if 0 <? List.length (toolResponses l)
   then messages_push (toolTurn l)
   else ret tt) ;;;
  ret l.

(* ================================================================= *)
(** ** The agents outside the sources *)

Definition agent_ui (ops : list AgentUiOp) : list Event :=
  map (fun op => match op with
                 | AgentUpdate n => EvStream UiStream (OpUpdate (VNode n))
                 | AgentAppend n => EvStream UiStream (OpAppend (VNode n))
                 end) ops.

Definition requirementsManager : M (option Action) :=
  msgs <- getMessages ;;
  emit (EvCall RequirementsManager msgs) ;;;
  emit (EvReturn RequirementsManager) ;;;
  ret (decisionResult E msgs).

Definition inquire : M (option Inquiry) :=
  msgs <- getMessages ;;
  emit (EvCall Inquire msgs) ;;;
  emits (agent_ui (inquiryUi E msgs)) ;;;
  emit (EvReturn Inquire) ;;;
  ret (inquiryResult E msgs).

Definition aiSuggestor : M unit :=
  msgs <- getMessages ;;
  emit (EvCall AiSuggestor msgs) ;;;
  emits (agent_ui (suggestorUi E msgs)) ;;;
  emit (EvReturn AiSuggestor).

(* ================================================================= *)
(** ** The orchestrator (submitUserInput / processEvents) *)

(** [while (code.length === 0) { ... = await writer(...) }].  [attempt] is
    one pass through the body, bracketed by the call and the return of
    [writer].  The loop has no bound in the source; [fuel] bounds the
    number of iterations the model unfolds, and [None] means the loop is
    still running. *)
Definition attempt : M Locals :=
  msgs <- getMessages ;;
  emit (EvCall Writer msgs) ;;;
  r <- writer ;;
  emit (EvReturn Writer) ;;;
  ret r.

Fixpoint retry_loop (fuel : nat) (code : string)
         (toolOutputs : list ToolResultPart) (errorOccurred : bool)
  : M (option (string * list ToolResultPart * bool)) :=
  if String.length code =? 0 then
    match fuel with
    | 0 => ret None
    | S fuel' =>
        r <- attempt ;;
        retry_loop fuel' (fullResponse r) (toolResponses r) (hasError r)
    end
  else ret (Some (code, toolOutputs, errorOccurred)).

Definition defaultAction : Action := mkAction "proceed".

(** [action = skip ? default : (await requirementsManager(messages)) ?? default] *)
Definition decide (skip : bool) : M Action :=
  if negb skip then
    r <- requirementsManager ;;
    ret (match r with Some a => a | None => defaultAction end)
  else ret defaultAction.

Definition inquiryTurn (inquiry : option Inquiry) : CoreMessage :=
  mkMessage assistant
    (Text ("inquiry: " +++
           template (match inquiry with
                     | Some i => question i
                     | None => None
                     end))).

Definition processEvents (fuel : nat) (skip : bool) : M Completion :=
  action <- decide skip ;;
  if String.eqb (next action) "inquire" then
    inquiry <- inquire ;;
    stream_op UiStream (OpDone None) ;;;
    stream_op IsGenerating (OpDone None) ;;;
    stream_op IsCollapsed (OpDone (Some (VBool false))) ;;;
    st <- aiState_get ;;
    aiState_done (st ++ [inquiryTurn inquiry]) ;;;
    ret Finished
  else
    stream_op IsCollapsed (OpDone (Some (VBool true))) ;;;
    stream_op CodeStream (OpCreate None) ;;;
    stream_op UiStream (OpUpdate (VNode (Spinner "Assistant thinking..."))) ;;;
    r <- retry_loop fuel EmptyString [] false ;;
    match r with
    | None => ret Pending
    | Some (code, _, errorOccurred) =>
        (if negb errorOccurred then
           aiSuggestor ;;;
           stream_op UiStream (OpAppend (VNode FollowupSection))
         else ret tt) ;;;
        stream_op IsGenerating (OpDone (Some (VBool false))) ;;;
        stream_op UiStream (OpDone None) ;;;
        st <- aiState_get ;;
        aiState_done (st ++ [mkMessage assistant (Text code)]) ;;;
        ret Finished
    end.

(** The part of [submitUserInput] before [processEvents()] is started:
    the three streamables are created, [messages] is bound to the array of
    the AI state and cut to the window, and the user turn is added. *)
Definition userContent (formData : option FormData) (skip : bool)
  : option string :=
  let userInput :=
    if skip then Some skipSentinel
    else match formData with
         | Some fd => FormData_get "input" fd
         | None => None
         end in
  if skip then userInput
  else match formData with
       | Some fd => Some (stringifyEntries E fd)
       | None => None
       end.

Definition prepare (formData : option FormData) (skip : bool) : M unit :=
  stream_op UiStream (OpCreate None) ;;;
  stream_op IsGenerating (OpCreate (Some (VBool true))) ;;;
  stream_op IsCollapsed (OpCreate (Some (VBool false))) ;;;
  (fun w => (tt, mkWorld (splice_front (messages w)) (aiState w)
                         (streamCalls w) (trace w))) ;;;
  match userContent formData skip with
  | Some c =>
      if truthy c then
        let message := mkMessage user (Text c) in
        messages_push message ;;;
        st <- aiState_get ;;
        aiState_update (st ++ [message])
      else ret tt
  | None => ret tt
  end.

Definition submitUserInput (fuel : nat) (formData : option FormData)
           (skip : bool) : M Completion :=
  prepare formData skip ;;;
  processEvents fuel skip.

End Exchange.

(** The world at the start of an exchange: [stored] is the array held by
    the AI state. *)
Definition world0 (stored : list CoreMessage) : World :=
  mkWorld stored SameArray 0 [].

(* ================================================================= *)
(** ** Reading a trace *)

Definition StreamId_eqb (a b : StreamId) : bool :=
  match a, b with
  | UiStream, UiStream | IsGenerating, IsGenerating
  | IsCollapsed, IsCollapsed | CodeStream, CodeStream => true
  | _, _ => false
  end.

Definition Agent_eqb (a b : Agent) : bool :=
  match a, b with
  | RequirementsManager, RequirementsManager | Inquire, Inquire
  | Writer, Writer | AiSuggestor, AiSuggestor => true
  | _, _ => false
  end.

(** The operations issued on stream [s], in order. *)
Definition stream_ops (s : StreamId) (tr : list Event) : list StreamOp :=
  flat_map (fun e => match e with
                     | EvStream s' op => if StreamId_eqb s s' then [op] else []
                     | _ => []
                     end) tr.

Definition is_done (op : StreamOp) : bool :=
  match op with OpDone _ => true | _ => false end.

Definition done_count (s : StreamId) (tr : list Event) : nat :=
  List.length (filter is_done (stream_ops s tr)).

(** The message lists agent [a] was called with, in order. *)
Definition calls_of (a : Agent) (tr : list Event) : list (list CoreMessage) :=
  flat_map (fun e => match e with
                     | EvCall a' msgs => if Agent_eqb a a' then [msgs] else []
                     | _ => []
                     end) tr.

(** The message lists of all agent calls, whatever the agent. *)
Definition all_calls (tr : list Event) : list (list CoreMessage) :=
  flat_map (fun e => match e with EvCall _ msgs => [msgs] | _ => [] end) tr.

Inductive Mark := Called | Returned.

(** The calls and returns of agent [a], in order. *)
Definition marks_of (a : Agent) (tr : list Event) : list Mark :=
  flat_map (fun e => match e with
                     | EvCall a' _ => if Agent_eqb a a' then [Called] else []
                     | EvReturn a' => if Agent_eqb a a' then [Returned] else []
                     | _ => []
                     end) tr.

(** The states handed to [aiState.done]. *)
Definition committed (tr : list Event) : list (list CoreMessage) :=
  flat_map (fun e => match e with EvAiDone st => [st] | _ => [] end) tr.

(** The strings pushed to the code value stream, in order. *)
Definition code_updates (tr : list Event) : list string :=
  flat_map (fun e => match e with
                     | EvStream CodeStream (OpUpdate (VString v)) => [v]
                     | _ => []
                     end) tr.

(** Modelled from the spec: the streamable primitives (package ai/rsc) are
    not part of the sources.  Section 4.1: [update] sets the current value
    while the stream is not done and fails afterwards; [done(finalValue?)]
    sets the terminal value when one is given and marks the stream done,
    and fails when repeated.  Section 4.2: [append] adds a node after the
    current ones, and a later [update] replaces the newest node only.  The
    current content is the list of nodes (one value for a value stream). *)
Record StreamState := mkStream {
  current : list SVal;
  closed : bool
}.

Definition stream_step (st : StreamState) (op : StreamOp)
  : option StreamState :=
  if closed st then None
  else match op with
       | OpCreate _ => None
       | OpUpdate v => Some (mkStream (removelast (current st) ++ [v]) false)
       | OpAppend v => Some (mkStream (current st ++ [v]) false)
       | OpDone None => Some (mkStream (current st) true)
       | OpDone (Some v) =>
           Some (mkStream (removelast (current st) ++ [v]) true)
       end.

Fixpoint stream_run (st : StreamState) (ops : list StreamOp)
  : option StreamState :=
  match ops with
  | [] => Some st
  | op :: rest =>
      match stream_step st op with
      | Some st' => stream_run st' rest
      | None => None
      end
  end.

(** The state of a stream after a history of operations that starts with
    its creation; [None] when some operation faults. *)
Definition stream_replay (ops : list StreamOp) : option StreamState :=
  match ops with
  | OpCreate init :: rest =>
      stream_run (mkStream (match init with Some v => [v] | None => [] end)
                           false) rest
  | _ => None
  end.

(** Stream [s] is closed by exactly one [done], which is the last
    operation issued on it. *)
Definition done_once_last (s : StreamId) (tr : list Event) : Prop :=
  exists pre final,
    stream_ops s tr = pre ++ [OpDone final] /\
    filter is_done pre = [].

(** The text [writer] accumulates from a stream part. *)
Definition contribution (d : Delta) : string :=
  match d with
  | TextDelta t => t
  | ErrorDelta => errorNotice
  | _ => EmptyString
  end.

Fixpoint text_of (ds : list Delta) : string :=
  match ds with
  | [] => EmptyString
  | d :: rest => contribution d +++ text_of rest
  end.

Definition is_error (d : Delta) : bool :=
  match d with ErrorDelta => true | _ => false end.

Definition calls_in (ds : list Delta) : list ToolCallPart :=
  flat_map (fun d => match d with ToolCallDelta tc => [tc] | _ => [] end) ds.

Definition results_in (ds : list Delta) : list ToolResultPart :=
  flat_map (fun d => match d with ToolResultDelta tr => [tr] | _ => [] end) ds.

(** The non-empty text fragments of a stream. *)
Definition fragments (ds : list Delta) : list string :=
  flat_map (fun d => match d with
                     | TextDelta t => if truthy t then [t] else []
                     | _ => []
                     end) ds.

Fixpoint concat_strings (l : list string) : string :=
  match l with
  | [] => EmptyString
  | s :: rest => s +++ concat_strings rest
  end.

(** [running acc l]: the values of the accumulator after each element of
    [l] has been appended to it. *)
Fixpoint running (acc : string) (l : list string) : list string :=
  match l with
  | [] => []
  | s :: rest => (acc +++ s) :: running (acc +++ s) rest
  end.

(** What the [k]-th call of [writer] returns and the stream operations of
    its loop. *)
Definition attempt_result (E : Env) (k : nat) : Locals :=
  fst (for_await (fullStream E k) locals0).

Definition attempt_out (E : Env) (k : nat) : list Event :=
  snd (for_await (fullStream E k) locals0).

(* ================================================================= *)
(** ** The events of a run, written out *)

(** Events that neither close a stream, nor touch the two flags, nor call
    an agent, nor write the AI state: updates and appends of the UI stream
    and updates of the code value stream. *)
Definition quietb (e : Event) : bool :=
  match e with
  | EvStream UiStream (OpUpdate _)
  | EvStream UiStream (OpAppend _)
  | EvStream CodeStream (OpUpdate _) => true
  | _ => false
  end.

(** The turns one call of [writer] pushes onto [messages]. *)
Definition writer_pushes (l : Locals) : list CoreMessage :=
  assistantTurn l ::
  (if 0 <? List.length (toolResponses l) then [toolTurn l] else []).

(** The events of the [k]-th attempt, started with [msgs] in [messages]. *)
Definition attempt_events (E : Env) (k : nat) (msgs : list CoreMessage)
  : list Event :=
  [EvCall Writer msgs] ++ attempt_out E k ++
  [EvStream UiStream (OpUpdate (VNode NullNode)); EvReturn Writer].

(** The events of [n] consecutive attempts from the [k]-th on, and the
    contents of [messages] after them. *)
Fixpoint attempts_events (E : Env) (n k : nat) (msgs : list CoreMessage)
  : list Event :=
  match n with
  | 0 => []
  | S n' =>
      attempt_events E k msgs ++
      attempts_events E n' (S k) (msgs ++ writer_pushes (attempt_result E k))
  end.

Fixpoint attempts_messages (E : Env) (n k : nat) (msgs : list CoreMessage)
  : list CoreMessage :=
  match n with
  | 0 => msgs
  | S n' =>
      attempts_messages E n' (S k) (msgs ++ writer_pushes (attempt_result E k))
  end.

(** The decision taken on [msgs] and the events of taking it. *)
Definition chosen (E : Env) (skip : bool) (msgs : list CoreMessage) : Action :=
  if negb skip then
    match decisionResult E msgs with
    | Some a => a
    | None => defaultAction
    end
  else defaultAction.

Definition decision_events (skip : bool) (msgs : list CoreMessage)
  : list Event :=
  if negb skip
  then [EvCall RequirementsManager msgs; EvReturn RequirementsManager]
  else [].

(** The world [processEvents] starts from. *)
Definition prepared (E : Env) (formData : option FormData) (skip : bool)
           (stored : list CoreMessage) : World :=
  snd (prepare E formData skip (world0 stored)).

(** The branch an exchange takes: [true] for the inquiry branch. *)
Definition inquires (E : Env) (formData : option FormData) (skip : bool)
           (stored : list CoreMessage) : bool :=
  String.eqb
    (next (chosen E skip (messages (prepared E formData skip stored))))
    "inquire".

(** The user turn of the exchange, if one is added. *)
Definition user_turns (E : Env) (formData : option FormData) (skip : bool)
  : list CoreMessage :=
  match userContent E formData skip with
  | Some c => if truthy c then [mkMessage user (Text c)] else []
  | None => []
  end.

(** [n] attempts, each started after the previous one has returned. *)
Fixpoint alternating (n : nat) : list Mark :=
  match n with
  | 0 => []
  | S n' => Called :: Returned :: alternating n'
  end.

(** The events of [prepare]: the three streamables are created, and the
    AI state is replaced when a user turn is added.  As [messages] is the
    array of the AI state, [aiState.get()] already holds the pushed turn
    when [aiState.update([...aiState.get(), message])] copies it. *)
Definition creation_events : list Event :=
  [EvStream UiStream (OpCreate None);
   EvStream IsGenerating (OpCreate (Some (VBool true)));
   EvStream IsCollapsed (OpCreate (Some (VBool false)))].

Definition user_events (window turns : list CoreMessage) : list Event :=
  match turns with
  | [] => []
  | _ => [EvAiUpdate ((window ++ turns) ++ turns)]
  end.

Definition ai_after_user (window turns : list CoreMessage) : AiRef :=
  match turns with
  | [] => SameArray
  | _ => OwnArray ((window ++ turns) ++ turns)
  end.

(** The events of the inquiry branch after the decision. *)
Definition inquire_events (E : Env) (msgs ai : list CoreMessage)
  : list Event :=
  [EvCall Inquire msgs] ++ agent_ui (inquiryUi E msgs) ++
  [EvReturn Inquire;
   EvStream UiStream (OpDone None);
   EvStream IsGenerating (OpDone None);
   EvStream IsCollapsed (OpDone (Some (VBool false)));
   EvAiDone (ai ++ [inquiryTurn (inquiryResult E msgs)])].

(** The events of the generation branch before and after the loop. *)
Definition opening_events : list Event :=
  [EvStream IsCollapsed (OpDone (Some (VBool true)));
   EvStream CodeStream (OpCreate None);
   EvStream UiStream (OpUpdate (VNode (Spinner "Assistant thinking...")))].

Definition suggest_events (E : Env) (msgs : list CoreMessage) : list Event :=
  [EvCall AiSuggestor msgs] ++ agent_ui (suggestorUi E msgs) ++
  [EvReturn AiSuggestor;
   EvStream UiStream (OpAppend (VNode FollowupSection))].

Definition closing_events (E : Env) (r : Locals) (msgs ai : list CoreMessage)
  : list Event :=
  (if negb (hasError r) then suggest_events E msgs else []) ++
  [EvStream IsGenerating (OpDone (Some (VBool false)));
   EvStream UiStream (OpDone None);
   EvAiDone (ai ++ [mkMessage assistant (Text (fullResponse r))])].

(** What [aiState.get()] returns when [messages] holds [msgs]. *)
Definition ai_view (a : AiRef) (msgs : list CoreMessage) : list CoreMessage :=
  match a with
  | SameArray => msgs
  | OwnArray st => st
  end.

(** The text buffer of the [k]-th call of [writer]. *)
Definition attempt_text (E : Env) (k : nat) : string :=
  fullResponse (attempt_result E k).

(** The last value pushed to the code value stream by a pass over [ds]. *)
Definition last_pushed (ds : list Delta) : option string :=
  match rev (code_updates (snd (for_await ds locals0))) with
  | [] => None
  | v :: _ => Some v
  end.

Definition is_push (op : StreamOp) : bool :=
  match op with
  | OpUpdate _ | OpAppend _ => true
  | _ => false
  end.

(** A complete history of a stream: created, then updated or appended to
    any number of times, then closed by one [done]. *)
Definition well_closed (ops : list StreamOp) : Prop :=
  exists init mid final,
    ops = OpCreate init :: mid ++ [OpDone final] /\
    forallb is_push mid = true.

(** The three streams of the exchange record. *)
Definition exchange_streams : list StreamId :=
  [IsGenerating; UiStream; IsCollapsed].

(* ================================================================= *)
(** ** Sample collaborators and inputs *)

(** A serialisation of the form entries for the sample inputs (keys and
    values without characters that need escaping). *)
Fixpoint sample_entries (fd : FormData) : string :=
  match fd with
  | [] => EmptyString
  | (k, v) :: rest =>
      dquote +++ k +++ dquote +++ ":" +++ dquote +++ v +++ dquote +++
      match rest with
      | [] => EmptyString
      | _ => "," +++ sample_entries rest
      end
  end.

Definition sample_stringify (fd : FormData) : string :=
  "{" +++ sample_entries fd +++ "}".

Definition sample_form : FormData :=
  [("input"%string, "Write an ERC20 token"%string)].

(** The decision agent yields nothing (the orchestrator proceeds); the
    model returns two streams without text, then the contract. *)
Definition env_retry : Env :=
  mkEnv (fun _ => None)
        (fun _ => [])
        (fun _ => None)
        (fun _ => [AgentAppend (AgentNode 1)])
        (fun k => match k with
                  | 0 => []
                  | 1 => [OtherDelta]
                  | _ => [TextDelta "pragma "; TextDelta "solidity ^0.8.0;"]
                  end)
        sample_stringify.

(** The decision agent asks for an inquiry and the inquiry agent streams
    one node and returns [q]. *)
Definition env_inquire (q : option Inquiry) : Env :=
  mkEnv (fun _ => Some (mkAction "inquire"))
        (fun _ => [AgentUpdate (AgentNode 0)])
        (fun _ => q)
        (fun _ => [])
        (fun _ => [])
        sample_stringify.

(** The decision agent proceeds and every call of the model yields [ds]. *)
Definition env_stream (ds : list Delta) : Env :=
  mkEnv (fun _ => Some (mkAction "proceed"))
        (fun _ => [])
        (fun _ => None)
        (fun _ => [AgentAppend (AgentNode 1)])
        (fun _ => ds)
        sample_stringify.


(** The scenario of the specification: the decision agent asks for an
    inquiry and the inquiry agent returns a question. *)
Definition env_symbol : Env :=
  env_inquire (Some (mkInquiry (Some "What should the token symbol be?"%string))).

Definition is_assistant (m : CoreMessage) : bool :=
  match role m with
  | assistant => true
  | _ => false
  end.

(** The follow-up sections appended to the UI stream. *)
Definition followups (tr : list Event) : list unit :=
  flat_map (fun e => match e with
                     | EvStream UiStream (OpAppend (VNode FollowupSection)) =>
                         [tt]
                     | _ => []
                     end) tr.

(** Streams with an error part: followed by a tool call, and followed by
    a text fragment. *)
Definition sample_call : ToolCallPart := mkToolCall "call-1" "search" "q".

Definition env_error : Env :=
  env_stream [TextDelta "pragma "; ErrorDelta; ToolCallDelta sample_call].


(* ================================================================= *)
(** ** Further readings of a run *)

(** The states handed to [aiState.update]. *)
Definition ai_updates (tr : list Event) : list (list CoreMessage) :=
  flat_map (fun e => match e with EvAiUpdate st => [st] | _ => [] end) tr.

(** Whether the first part of a stream that adds to the text buffer is a
    text fragment (and not an error part). *)
Fixpoint leading (ds : list Delta) : bool :=
  match ds with
  | [] => false
  | TextDelta t :: rest => if truthy t then true else leading rest
  | ErrorDelta :: _ => false
  | _ :: rest => leading rest
  end.

(** The parts of a stream that have an effect in the loop of [writer]. *)
Definition significant (d : Delta) : bool :=
  match d with
  | TextDelta t => truthy t
  | ToolCallDelta _ => true
  | ErrorDelta => true
  | ToolResultDelta _ => false
  | OtherDelta => false
  end.

(** Each value extends the one before it (the first one extends [prev])
    by a non-empty piece. *)
Fixpoint growing_from (prev : string) (l : list string) : Prop :=
  match l with
  | [] => True
  | v :: rest =>
      (exists piece, piece <> EmptyString /\ v = prev +++ piece) /\
      growing_from v rest
  end.

(** The assistant turns pushed by the attempts [k], ..., [k + n - 1]. *)
Definition pushed_turns (E : Env) (k n : nat) : list CoreMessage :=
  map (fun j => assistantTurn (attempt_result E j)) (seq k n).

(** A model whose streams never carry text or an error. *)
Definition env_silent : Env :=
  mkEnv (fun _ => None)
        (fun _ => [])
        (fun _ => None)
        (fun _ => [])
        (fun _ => [OtherDelta; TextDelta EmptyString])
        sample_stringify.


(** A stream that carries neither a non-empty text fragment nor an error
    part. *)
Definition silent (ds : list Delta) : Prop :=
  fragments ds = [] /\ existsb is_error ds = false.

(* ================================================================= *)
(** ** Strings *)

Lemma append_empty_r (s : string) : s +++ EmptyString = s.
Proof. induction s as [|c s IH]; simpl; [reflexivity | now rewrite IH]. Qed.

Lemma append_assoc (a b c : string) : (a +++ b) +++ c = a +++ (b +++ c).
Proof. induction a as [|x a IH]; simpl; [reflexivity | now rewrite IH]. Qed.

Lemma length_append (a b : string) :
  String.length (a +++ b) = String.length a + String.length b.
Proof. induction a as [|x a IH]; simpl; [reflexivity | now rewrite IH]. Qed.

Lemma length_zero_iff (s : string) : String.length s = 0 <-> s = EmptyString.
Proof. destruct s; simpl; split; intros H; try reflexivity; discriminate. Qed.

Lemma empty_test (s : string) :
  (String.length s =? 0) = true <-> s = EmptyString.
Proof. rewrite Nat.eqb_eq. apply length_zero_iff. Qed.

Lemma nonempty_test (s : string) :
  (String.length s =? 0) = false <-> s <> EmptyString.
Proof.
  rewrite Nat.eqb_neq. split; intros H C; apply H; now apply length_zero_iff.
Qed.

Lemma truthy_false (s : string) : truthy s = false -> s = EmptyString.
Proof.
  unfold truthy. intros H. apply empty_test.
  now destruct (String.length s =? 0).
Qed.

Lemma truthy_true (s : string) : truthy s = true <-> s <> EmptyString.
Proof.
  unfold truthy. rewrite negb_true_iff. apply nonempty_test.
Qed.

Lemma append_nonempty_r (a b : string) :
  b <> EmptyString -> a +++ b <> EmptyString.
Proof.
  intros Hb H. apply Hb. apply length_zero_iff.
  apply length_zero_iff in H. rewrite length_append in H. lia.
Qed.

Lemma append_nonempty_l (a b : string) :
  a <> EmptyString -> a +++ b <> EmptyString.
Proof.
  intros Ha H. apply Ha. apply length_zero_iff.
  apply length_zero_iff in H. rewrite length_append in H. lia.
Qed.

Lemma errorNotice_nonempty : errorNotice <> EmptyString.
Proof. discriminate. Qed.

(* ================================================================= *)
(** ** The loop of the writer *)

Lemma for_await_cons (d : Delta) (ds : list Delta) (l : Locals) :
  for_await (d :: ds) l =
  (fst (for_await ds (fst (on_delta d l))),
   snd (on_delta d l) ++ snd (for_await ds (fst (on_delta d l)))).
Proof.
  simpl. destruct (on_delta d l) as [l1 o1].
  simpl. now destruct (for_await ds l1).
Qed.

(** The loop is a left-to-right pass: consuming [a ++ b] is consuming [a]
    and then [b] from the locals [a] left behind. *)
Lemma for_await_app (a b : list Delta) (l : Locals) :
  for_await (a ++ b) l =
  (fst (for_await b (fst (for_await a l))),
   snd (for_await a l) ++ snd (for_await b (fst (for_await a l)))).
Proof.
  revert l. induction a as [|d a IH]; intros l.
  - simpl. now destruct (for_await b l).
  - rewrite <- app_comm_cons, !for_await_cons, IH. simpl.
    now rewrite app_assoc.
Qed.

Lemma on_delta_fullResponse (d : Delta) (l : Locals) :
  fullResponse (fst (on_delta d l)) = fullResponse l +++ contribution d.
Proof.
  destruct d as [t| | | |]; cbn [on_delta contribution];
    try (cbn [fst fullResponse]; now rewrite ?append_empty_r).
  destruct (truthy t) eqn:Ht; cbn [fst fullResponse]; [reflexivity|].
  apply truthy_false in Ht. subst t. now rewrite append_empty_r.
Qed.

Lemma on_delta_hasError (d : Delta) (l : Locals) :
  hasError (fst (on_delta d l)) = hasError l || is_error d.
Proof.
  destruct d as [t| | | |]; simpl;
    try (destruct (truthy t)); simpl;
    now rewrite ?orb_false_r, ?orb_true_r.
Qed.

Lemma on_delta_toolCalls (d : Delta) (l : Locals) :
  toolCalls (fst (on_delta d l)) = toolCalls l ++ calls_in [d].
Proof.
  destruct d as [t| | | |]; simpl;
    try (destruct (truthy t)); simpl; now rewrite ?app_nil_r.
Qed.

Lemma on_delta_toolResponses (d : Delta) (l : Locals) :
  toolResponses (fst (on_delta d l)) = toolResponses l.
Proof.
  destruct d as [t| | | |]; simpl; try (destruct (truthy t)); reflexivity.
Qed.

Lemma for_await_fullResponse (ds : list Delta) (l : Locals) :
  fullResponse (fst (for_await ds l)) = fullResponse l +++ text_of ds.
Proof.
  revert l. induction ds as [|d ds IH]; intros l.
  - simpl. now rewrite append_empty_r.
  - rewrite for_await_cons. simpl fst.
    now rewrite IH, on_delta_fullResponse, append_assoc.
Qed.

Lemma for_await_hasError (ds : list Delta) (l : Locals) :
  hasError (fst (for_await ds l)) = hasError l || existsb is_error ds.
Proof.
  revert l. induction ds as [|d ds IH]; intros l.
  - simpl. now rewrite orb_false_r.
  - rewrite for_await_cons. simpl fst.
    rewrite IH, on_delta_hasError. simpl. now rewrite orb_assoc.
Qed.

Lemma for_await_toolCalls (ds : list Delta) (l : Locals) :
  toolCalls (fst (for_await ds l)) = toolCalls l ++ calls_in ds.
Proof.
  revert l. induction ds as [|d ds IH]; intros l.
  - simpl. now rewrite app_nil_r.
  - rewrite for_await_cons. simpl fst.
    rewrite IH, on_delta_toolCalls, <- app_assoc. f_equal.
    unfold calls_in. simpl. now rewrite app_nil_r.
Qed.

Lemma for_await_toolResponses (ds : list Delta) (l : Locals) :
  toolResponses (fst (for_await ds l)) = toolResponses l.
Proof.
  revert l. induction ds as [|d ds IH]; intros l.
  - reflexivity.
  - rewrite for_await_cons. simpl fst.
    now rewrite IH, on_delta_toolResponses.
Qed.

Lemma text_of_app (a b : list Delta) :
  text_of (a ++ b) = text_of a +++ text_of b.
Proof.
  induction a as [|d a IH]; simpl; [reflexivity|].
  now rewrite IH, append_assoc.
Qed.

Lemma code_updates_app (a b : list Event) :
  code_updates (a ++ b) = code_updates a ++ code_updates b.
Proof. apply flat_map_app. Qed.

(** Only a truthy text fragment pushes to the code value stream, and what
    it pushes is the buffer with the fragment appended. *)
Lemma on_delta_code_updates (d : Delta) (l : Locals) :
  code_updates (snd (on_delta d l)) =
  match d with
  | TextDelta t => if truthy t then [fullResponse l +++ t] else []
  | _ => []
  end.
Proof.
  destruct d as [t| | | |]; simpl; try reflexivity.
  destruct (truthy t); simpl; [|reflexivity].
  now destruct ((String.length (fullResponse l) =? 0) && (0 <? String.length t)).
Qed.

(* ================================================================= *)
(** ** One attempt and the retry loop *)

Section Loop.

Variable E : Env.

Lemma attempt_eq (w : World) :
  attempt E w =
  (attempt_result E (streamCalls w),
   mkWorld (messages w ++ writer_pushes (attempt_result E (streamCalls w)))
           (aiState w) (S (streamCalls w))
           (trace w ++ attempt_events E (streamCalls w) (messages w))).
Proof.
  unfold attempt_events, attempt_result, attempt_out, writer_pushes.
  cbv [attempt writer bind getMessages stream_op emit emits streamText
       messages_push ret].
  cbn [messages aiState streamCalls trace].
  destruct (for_await (fullStream E (streamCalls w)) locals0) as [l out].
  cbn [fst snd messages aiState streamCalls trace].
  destruct (0 <? List.length (toolResponses l));
    cbn [messages aiState streamCalls trace];
    repeat rewrite <- app_assoc; reflexivity.
Qed.

Lemma retry_loop_unfold (fuel : nat) (code : string)
      (t : list ToolResultPart) (e : bool) :
  retry_loop E fuel code t e =
  if String.length code =? 0 then
    match fuel with
    | 0 => ret None
    | S fuel' =>
        bind (attempt E)
             (fun r => retry_loop E fuel' (fullResponse r) (toolResponses r)
                                  (hasError r))
    end
  else ret (Some (code, t, e)).
Proof. destruct fuel; reflexivity. Qed.

Lemma retry_loop_nonempty (fuel : nat) (code : string)
      (t : list ToolResultPart) (e : bool) (w : World) :
  code <> EmptyString ->
  retry_loop E fuel code t e w = (Some (code, t, e), w).
Proof.
  intros H. rewrite retry_loop_unfold.
  apply nonempty_test in H. now rewrite H.
Qed.

(** The loop leaves only with a non-empty text. *)
Lemma retry_loop_exit (fuel : nat) :
  forall code t e w code' t' e' w',
    retry_loop E fuel code t e w = (Some (code', t', e'), w') ->
    code' <> EmptyString.
Proof.
  induction fuel as [|fuel IH]; intros code t e w code' t' e' w' H;
    rewrite retry_loop_unfold in H;
    destruct (String.length code =? 0) eqn:Hc.
  - discriminate.
  - inversion H; subst. now apply nonempty_test.
  - unfold bind in H. rewrite attempt_eq in H. eapply IH; eassumption.
  - inversion H; subst. now apply nonempty_test.
Qed.

(** While every attempt comes back empty the loop keeps going. *)
Lemma retry_loop_pending (fuel : nat) :
  forall t e w,
    (forall j, j < fuel ->
       fullResponse (attempt_result E (streamCalls w + j)) = EmptyString) ->
    retry_loop E fuel EmptyString t e w =
    (None,
     mkWorld (attempts_messages E fuel (streamCalls w) (messages w))
             (aiState w) (streamCalls w + fuel)
             (trace w ++ attempts_events E fuel (streamCalls w) (messages w))).
Proof.
  induction fuel as [|fuel IH]; intros t e w Hempty.
  - simpl. unfold ret. rewrite Nat.add_0_r, app_nil_r. now destruct w.
  - rewrite retry_loop_unfold. simpl (String.length _ =? 0).
    unfold bind. rewrite attempt_eq.
    assert (H0 : fullResponse (attempt_result E (streamCalls w)) = EmptyString).
    { specialize (Hempty 0). rewrite Nat.add_0_r in Hempty. apply Hempty. lia. }
    rewrite H0, IH.
    + cbn [messages aiState streamCalls trace attempts_messages attempts_events].
      rewrite <- app_assoc. f_equal. f_equal. lia.
    + intros j Hj. cbn [streamCalls].
      replace (S (streamCalls w) + j) with (streamCalls w + S j) by lia.
      apply Hempty. lia.
Qed.

(** [n] empty attempts followed by a non-empty one: the loop ends with
    attempt [n + 1], whatever fuel above [n] it is given. *)
Lemma retry_loop_finishes (n : nat) :
  forall fuel t e w,
    n < fuel ->
    (forall j, j < n ->
       fullResponse (attempt_result E (streamCalls w + j)) = EmptyString) ->
    fullResponse (attempt_result E (streamCalls w + n)) <> EmptyString ->
    retry_loop E fuel EmptyString t e w =
    (Some (fullResponse (attempt_result E (streamCalls w + n)),
           toolResponses (attempt_result E (streamCalls w + n)),
           hasError (attempt_result E (streamCalls w + n))),
     mkWorld (attempts_messages E (S n) (streamCalls w) (messages w))
             (aiState w) (streamCalls w + S n)
             (trace w ++ attempts_events E (S n) (streamCalls w) (messages w))).
Proof.
  induction n as [|n IH]; intros fuel t e w Hfuel Hempty Hfull;
    (destruct fuel as [|fuel]; [lia|]);
    rewrite retry_loop_unfold; simpl (String.length _ =? 0);
    unfold bind; rewrite attempt_eq.
  - rewrite Nat.add_0_r in *.
    rewrite retry_loop_nonempty by assumption.
    cbn [attempts_messages attempts_events]. rewrite app_nil_r.
    f_equal. f_equal. lia.
  - assert (H0 : fullResponse (attempt_result E (streamCalls w)) = EmptyString).
    { specialize (Hempty 0). rewrite Nat.add_0_r in Hempty. apply Hempty. lia. }
    rewrite H0, IH.
    + cbn [messages aiState streamCalls trace].
      replace (S (streamCalls w) + n) with (streamCalls w + S n) by lia.
      cbn [attempts_messages attempts_events].
      rewrite <- !app_assoc. f_equal. f_equal. lia.
    + lia.
    + intros j Hj. cbn [streamCalls].
      replace (S (streamCalls w) + j) with (streamCalls w + S j) by lia.
      apply Hempty. lia.
    + cbn [streamCalls].
      now replace (S (streamCalls w) + n) with (streamCalls w + S n) by lia.
Qed.

End Loop.

(* ================================================================= *)
(** ** The exchange, branch by branch *)

(** Bring nested appends to the same right-nested form on both sides. *)
Ltac norm_app :=
  repeat (progress (rewrite <- ?app_assoc; cbn [app])).

Section Branches.

Variable E : Env.

Lemma prepare_eq (formData : option FormData) (skip : bool)
      (stored : list CoreMessage) :
  prepared E formData skip stored =
  mkWorld (splice_front stored ++ user_turns E formData skip)
          (ai_after_user (splice_front stored) (user_turns E formData skip))
          0
          (creation_events ++
           user_events (splice_front stored) (user_turns E formData skip)).
Proof.
  unfold prepared, user_turns, world0.
  cbv [prepare bind stream_op emit ret messages_push aiState_get
       aiState_update currentAi].
  cbn [messages aiState streamCalls trace].
  destruct (userContent E formData skip) as [c|];
    [destruct (truthy c)|];
    cbn [snd messages aiState streamCalls trace user_events ai_after_user];
    rewrite ?app_nil_r; reflexivity.
Qed.

Lemma decide_eq (skip : bool) (w : World) :
  decide E skip w =
  (chosen E skip (messages w),
   mkWorld (messages w) (aiState w) (streamCalls w)
           (trace w ++ decision_events skip (messages w))).
Proof.
  unfold chosen, decision_events.
  cbv [decide requirementsManager bind getMessages emit ret].
  destruct skip; cbn [negb messages aiState streamCalls trace].
  - rewrite app_nil_r. now destruct w.
  - now rewrite <- app_assoc.
Qed.

Lemma processEvents_inquire (fuel : nat) (skip : bool) (w : World) :
  String.eqb (next (chosen E skip (messages w))) "inquire" = true ->
  processEvents E fuel skip w =
  (Finished,
   mkWorld (messages w)
           (OwnArray (currentAi w ++
                      [inquiryTurn (inquiryResult E (messages w))]))
           (streamCalls w)
           (trace w ++ decision_events skip (messages w) ++
            inquire_events E (messages w) (currentAi w))).
Proof.
  intros H. unfold processEvents, bind at 1. rewrite decide_eq, H.
  unfold inquire_events.
  cbv [inquire bind getMessages stream_op emit emits ret aiState_get
       aiState_done currentAi].
  cbn [messages aiState streamCalls trace].
  repeat rewrite <- app_assoc. reflexivity.
Qed.

Lemma opening_eq (fuel : nat) (skip : bool) (w : World) :
  String.eqb (next (chosen E skip (messages w))) "inquire" = false ->
  processEvents E fuel skip w =
  (let w1 := mkWorld (messages w) (aiState w) (streamCalls w)
                     (trace w ++ decision_events skip (messages w) ++
                      opening_events) in
   let (r, w2) := retry_loop E fuel EmptyString [] false w1 in
   match r with
   | None => (Pending, w2)
   | Some (code, _, errorOccurred) =>
       (Finished,
        mkWorld (messages w2)
                (OwnArray (currentAi w2 ++ [mkMessage assistant (Text code)]))
                (streamCalls w2)
                (trace w2 ++
                 (if negb errorOccurred
                  then suggest_events E (messages w2) else []) ++
                 [EvStream IsGenerating (OpDone (Some (VBool false)));
                  EvStream UiStream (OpDone None);
                  EvAiDone (currentAi w2 ++
                            [mkMessage assistant (Text code)])]))
   end).
Proof.
  intros H. unfold processEvents, bind at 1. rewrite decide_eq, H.
  unfold opening_events, suggest_events.
  cbv [bind stream_op emit ret].
  cbn [messages aiState streamCalls trace].
  repeat rewrite <- app_assoc. cbn [app].
  destruct (retry_loop E fuel EmptyString [] false _) as [[[[code t] e]|] w2];
    [|reflexivity].
  cbv [aiSuggestor bind getMessages emit emits ret aiState_get aiState_done
       currentAi].
  destruct e; cbn [negb messages aiState streamCalls trace];
    norm_app; reflexivity.
Qed.

(** The generation branch when attempt [n + 1] is the first with text. *)
Lemma processEvents_generate (n fuel : nat) (skip : bool) (w : World) :
  String.eqb (next (chosen E skip (messages w))) "inquire" = false ->
  n < fuel ->
  (forall j, j < n -> attempt_text E (streamCalls w + j) = EmptyString) ->
  attempt_text E (streamCalls w + n) <> EmptyString ->
  let r := attempt_result E (streamCalls w + n) in
  let msgs := attempts_messages E (S n) (streamCalls w) (messages w) in
  processEvents E fuel skip w =
  (Finished,
   mkWorld msgs
           (OwnArray (ai_view (aiState w) msgs ++
                      [mkMessage assistant (Text (fullResponse r))]))
           (streamCalls w + S n)
           (trace w ++ decision_events skip (messages w) ++ opening_events ++
            attempts_events E (S n) (streamCalls w) (messages w) ++
            closing_events E r msgs (ai_view (aiState w) msgs))).
Proof.
  intros H Hfuel Hempty Hfull r msgs. rewrite opening_eq by assumption.
  cbv zeta.
  rewrite (retry_loop_finishes E n) by assumption.
  unfold closing_events, currentAi, ai_view.
  cbn [messages aiState streamCalls trace].
  fold r. fold msgs. repeat rewrite <- app_assoc. reflexivity.
Qed.

(** The generation branch while every attempt has come back empty. *)
Lemma processEvents_pending (fuel : nat) (skip : bool) (w : World) :
  String.eqb (next (chosen E skip (messages w))) "inquire" = false ->
  (forall j, j < fuel -> attempt_text E (streamCalls w + j) = EmptyString) ->
  processEvents E fuel skip w =
  (Pending,
   mkWorld (attempts_messages E fuel (streamCalls w) (messages w))
           (aiState w) (streamCalls w + fuel)
           (trace w ++ decision_events skip (messages w) ++ opening_events ++
            attempts_events E fuel (streamCalls w) (messages w))).
Proof.
  intros H Hempty. rewrite opening_eq by assumption. cbv zeta.
  rewrite (retry_loop_pending E fuel) by assumption.
  cbn [messages aiState streamCalls trace].
  repeat rewrite <- app_assoc. reflexivity.
Qed.

Lemma submit_eq (fuel : nat) (formData : option FormData) (skip : bool)
      (stored : list CoreMessage) :
  submitUserInput E fuel formData skip (world0 stored) =
  processEvents E fuel skip (prepared E formData skip stored).
Proof.
  unfold submitUserInput, prepared, bind.
  now destruct (prepare E formData skip (world0 stored)) as [[] w].
Qed.

(** Among the first [fuel] attempts either all are empty or there is a
    first one with text. *)
Lemma first_nonempty (fuel k : nat) :
  (forall j, j < fuel -> attempt_text E (k + j) = EmptyString) \/
  (exists n, n < fuel /\
             (forall j, j < n -> attempt_text E (k + j) = EmptyString) /\
             attempt_text E (k + n) <> EmptyString).
Proof.
  induction fuel as [|fuel [IH|[n [Hn [He Hf]]]]].
  - left. intros j Hj. lia.
  - destruct (string_dec (attempt_text E (k + fuel)) EmptyString) as [Hz|Hz].
    + left. intros j Hj.
      destruct (Nat.eq_dec j fuel) as [->|]; [assumption|apply IH; lia].
    + right. exists fuel. repeat split; [lia|assumption|assumption].
  - right. exists n. repeat split; [lia|assumption|assumption].
Qed.

End Branches.

(* ================================================================= *)
(** ** Reading the events of a run *)

Lemma stream_ops_app (s : StreamId) (a b : list Event) :
  stream_ops s (a ++ b) = stream_ops s a ++ stream_ops s b.
Proof. apply flat_map_app. Qed.

Lemma calls_of_app (x : Agent) (a b : list Event) :
  calls_of x (a ++ b) = calls_of x a ++ calls_of x b.
Proof. apply flat_map_app. Qed.

Lemma all_calls_app (a b : list Event) :
  all_calls (a ++ b) = all_calls a ++ all_calls b.
Proof. apply flat_map_app. Qed.

Lemma marks_of_app (x : Agent) (a b : list Event) :
  marks_of x (a ++ b) = marks_of x a ++ marks_of x b.
Proof. apply flat_map_app. Qed.

Lemma committed_app (a b : list Event) :
  committed (a ++ b) = committed a ++ committed b.
Proof. apply flat_map_app. Qed.

Create Rewrite HintDb trace_app.
#[export] Hint Rewrite stream_ops_app calls_of_app all_calls_app marks_of_app
  committed_app code_updates_app : trace_app.

Section Quiet.

Variable es : list Event.
Hypothesis Hq : forallb quietb es = true.

Lemma quiet_calls (a : Agent) : calls_of a es = [].
Proof.
  induction es as [|e l IH]; [reflexivity|].
  simpl in Hq. apply andb_prop in Hq as [He Hl].
  unfold calls_of in *. simpl. rewrite (IH Hl).
  destruct e as [s op| | | |]; try discriminate. reflexivity.
Qed.

Lemma quiet_all_calls : all_calls es = [].
Proof.
  induction es as [|e l IH]; [reflexivity|].
  simpl in Hq. apply andb_prop in Hq as [He Hl].
  unfold all_calls in *. simpl. rewrite (IH Hl).
  destruct e as [s op| | | |]; try discriminate. reflexivity.
Qed.

Lemma quiet_marks (a : Agent) : marks_of a es = [].
Proof.
  induction es as [|e l IH]; [reflexivity|].
  simpl in Hq. apply andb_prop in Hq as [He Hl].
  unfold marks_of in *. simpl. rewrite (IH Hl).
  destruct e as [s op| | | |]; try discriminate. reflexivity.
Qed.

Lemma quiet_committed : committed es = [].
Proof.
  induction es as [|e l IH]; [reflexivity|].
  simpl in Hq. apply andb_prop in Hq as [He Hl].
  unfold committed in *. simpl. rewrite (IH Hl).
  destruct e as [s op| | | |]; try discriminate. reflexivity.
Qed.

Lemma quiet_flags (s : StreamId) :
  s = IsGenerating \/ s = IsCollapsed -> stream_ops s es = [].
Proof.
  intros Hs. induction es as [|e l IH]; [reflexivity|].
  simpl in Hq. apply andb_prop in Hq as [He Hl].
  unfold stream_ops in *. simpl. rewrite (IH Hl).
  destruct e as [s' op| | | |]; try discriminate.
  destruct Hs as [-> | ->]; destruct s'; try discriminate He; reflexivity.
Qed.

Lemma quiet_pushes (s : StreamId) : forallb is_push (stream_ops s es) = true.
Proof.
  induction es as [|e l IH]; [reflexivity|].
  simpl in Hq. apply andb_prop in Hq as [He Hl].
  unfold stream_ops in *. simpl. rewrite forallb_app, (IH Hl), andb_true_r.
  destruct e as [s' op| | | |]; try discriminate.
  destruct s, s', op; try discriminate He; reflexivity.
Qed.

End Quiet.

Lemma on_delta_quiet (d : Delta) (l : Locals) :
  forallb quietb (snd (on_delta d l)) = true.
Proof.
  destruct d as [t| | | |]; simpl; try reflexivity.
  destruct (truthy t); simpl; [|reflexivity].
  now destruct ((String.length (fullResponse l) =? 0) && (0 <? String.length t)).
Qed.

Lemma for_await_quiet (ds : list Delta) (l : Locals) :
  forallb quietb (snd (for_await ds l)) = true.
Proof.
  revert l. induction ds as [|d ds IH]; intros l; [reflexivity|].
  rewrite for_await_cons. cbn [snd].
  now rewrite forallb_app, on_delta_quiet, IH.
Qed.

Lemma agent_ui_quiet (ops : list AgentUiOp) :
  forallb quietb (agent_ui ops) = true.
Proof.
  induction ops as [|op ops IH]; [reflexivity|].
  simpl. rewrite IH. now destruct op.
Qed.

Lemma attempt_out_quiet (E : Env) (k : nat) :
  forallb quietb (attempt_out E k) = true.
Proof. apply for_await_quiet. Qed.

(** The writer never records a tool result, so it pushes one turn. *)
Lemma attempt_toolResponses (E : Env) (k : nat) :
  toolResponses (attempt_result E k) = [].
Proof. unfold attempt_result. now rewrite for_await_toolResponses. Qed.

Lemma writer_pushes_attempt (E : Env) (k : nat) :
  writer_pushes (attempt_result E k) = [assistantTurn (attempt_result E k)].
Proof. unfold writer_pushes. now rewrite attempt_toolResponses. Qed.

Section Attempts.

Variable E : Env.

Lemma attempt_events_marks (k : nat) (msgs : list CoreMessage) :
  marks_of Writer (attempt_events E k msgs) = [Called; Returned].
Proof.
  unfold attempt_events. autorewrite with trace_app.
  rewrite (quiet_marks _ (attempt_out_quiet E k)). reflexivity.
Qed.

Lemma attempts_events_marks (n : nat) :
  forall k msgs,
    marks_of Writer (attempts_events E n k msgs) = alternating n.
Proof.
  induction n as [|n IH]; intros k msgs; [reflexivity|].
  cbn [attempts_events alternating].
  now rewrite marks_of_app, attempt_events_marks, IH.
Qed.

Lemma attempts_events_calls (n : nat) :
  forall k msgs,
    List.length (calls_of Writer (attempts_events E n k msgs)) = n.
Proof.
  induction n as [|n IH]; intros k msgs; [reflexivity|].
  cbn [attempts_events]. unfold attempt_events.
  autorewrite with trace_app.
  rewrite (quiet_calls _ (attempt_out_quiet E k)), !length_app, IH.
  reflexivity.
Qed.

Lemma attempts_events_other_calls (a : Agent) (n : nat) :
  a <> Writer ->
  forall k msgs, calls_of a (attempts_events E n k msgs) = [].
Proof.
  intros Ha. induction n as [|n IH]; intros k msgs; [reflexivity|].
  cbn [attempts_events]. unfold attempt_events.
  autorewrite with trace_app.
  rewrite (quiet_calls _ (attempt_out_quiet E k)), IH.
  destruct a; try contradiction; reflexivity.
Qed.

Lemma attempts_events_committed (n : nat) :
  forall k msgs, committed (attempts_events E n k msgs) = [].
Proof.
  induction n as [|n IH]; intros k msgs; [reflexivity|].
  cbn [attempts_events]. unfold attempt_events.
  autorewrite with trace_app.
  now rewrite (quiet_committed _ (attempt_out_quiet E k)), IH.
Qed.

Lemma attempts_events_flags (s : StreamId) (n : nat) :
  s = IsGenerating \/ s = IsCollapsed ->
  forall k msgs, stream_ops s (attempts_events E n k msgs) = [].
Proof.
  intros Hs. induction n as [|n IH]; intros k msgs; [reflexivity|].
  cbn [attempts_events]. unfold attempt_events.
  autorewrite with trace_app.
  rewrite (quiet_flags _ (attempt_out_quiet E k) s Hs), IH.
  destruct Hs as [-> | ->]; reflexivity.
Qed.

Lemma attempts_events_pushes (s : StreamId) (n : nat) :
  forall k msgs,
    forallb is_push (stream_ops s (attempts_events E n k msgs)) = true.
Proof.
  induction n as [|n IH]; intros k msgs; [reflexivity|].
  cbn [attempts_events]. unfold attempt_events.
  autorewrite with trace_app. rewrite !forallb_app.
  rewrite (quiet_pushes _ (attempt_out_quiet E k) s), IH.
  destruct s; reflexivity.
Qed.



End Attempts.

Lemma done_count_app (s : StreamId) (a b : list Event) :
  done_count s (a ++ b) = done_count s a + done_count s b.
Proof.
  unfold done_count. now rewrite stream_ops_app, filter_app, length_app.
Qed.

Lemma pushes_no_done (ops : list StreamOp) :
  forallb is_push ops = true -> filter is_done ops = [].
Proof.
  induction ops as [|op ops IH]; [reflexivity|].
  simpl. intros H. apply andb_prop in H as [Hop Hops].
  rewrite (IH Hops). now destruct op.
Qed.

Lemma quiet_done_count (s : StreamId) (es : list Event) :
  forallb quietb es = true -> done_count s es = 0.
Proof.
  intros H. unfold done_count.
  now rewrite (pushes_no_done _ (quiet_pushes es H s)).
Qed.

Lemma attempts_events_done_count (E : Env) (s : StreamId) (n k : nat)
      (msgs : list CoreMessage) :
  done_count s (attempts_events E n k msgs) = 0.
Proof.
  unfold done_count.
  now rewrite (pushes_no_done _ (attempts_events_pushes E s n k msgs)).
Qed.

#[export] Hint Rewrite done_count_app : trace_app.

(* ================================================================= *)
(** ** Properties of an exchange *)

Lemma prepared_streamCalls (E : Env) (formData : option FormData)
      (skip : bool) (stored : list CoreMessage) :
  streamCalls (prepared E formData skip stored) = 0.
Proof. now rewrite prepare_eq. Qed.

Lemma prepared_trace (E : Env) (formData : option FormData)
      (skip : bool) (stored : list CoreMessage) :
  trace (prepared E formData skip stored) =
  creation_events ++
  user_events (splice_front stored) (user_turns E formData skip).
Proof. now rewrite prepare_eq. Qed.

(** Unfold the fixed pieces of a trace and split on the tests that select
    them, then read the projection off each piece. *)
Ltac split_pieces :=
  unfold creation_events, user_events, decision_events, opening_events,
    closing_events, suggest_events, inquire_events;
  repeat match goal with
         | |- context [match user_turns ?E ?f ?s with _ => _ end] =>
             destruct (user_turns E f s)
         | |- context [if negb ?b then _ else _] => destruct b; cbn [negb]
         end.

Ltac read_trace :=
  autorewrite with trace_app;
  rewrite ?(quiet_calls _ (agent_ui_quiet _)),
          ?(quiet_marks _ (agent_ui_quiet _)),
          ?(quiet_committed _ (agent_ui_quiet _)),
          ?(quiet_all_calls _ (agent_ui_quiet _)),
          ?(quiet_done_count _ _ (agent_ui_quiet _)),
          ?attempts_events_marks, ?attempts_events_committed,
          ?attempts_events_done_count, ?length_app, ?attempts_events_calls;
  cbn.

Ltac at_start E formData skip stored :=
  cbn [trace streamCalls];
  rewrite ?prepared_trace, ?(prepared_streamCalls E formData skip stored).

(** C1.  In a generation-branch exchange whose first [N] calls of the
    writer return an empty text and whose call [N + 1] returns a non-empty
    one, the retry loop makes exactly [N + 1] attempts, one after the
    other (each call is followed by its return before the next call), and
    ends after attempt [N + 1]; as long as only empty attempts have been
    made the run is still inside the loop: nothing is committed, neither
    [isGenerating] nor the UI stream is closed and the suggestion agent
    is not called. *)
Theorem retry_until_text (E : Env) (formData : option FormData)
        (skip : bool) (stored : list CoreMessage) (N fuel : nat) :
  inquires E formData skip stored = false ->
  (forall j, j < N -> attempt_text E j = EmptyString) ->
  attempt_text E N <> EmptyString ->
  N < fuel ->
  exists w',
    submitUserInput E fuel formData skip (world0 stored) = (Finished, w') /\
    List.length (calls_of Writer (trace w')) = S N /\
    streamCalls w' = S N /\
    marks_of Writer (trace w') = alternating (S N) /\
    (exists st,
        committed (trace w') =
        [st ++ [mkMessage assistant (Text (attempt_text E N))]]) /\
    (forall fuel', fuel' <= N ->
       exists w,
         submitUserInput E fuel' formData skip (world0 stored) = (Pending, w) /\
         List.length (calls_of Writer (trace w)) = fuel' /\
         marks_of Writer (trace w) = alternating fuel' /\
         committed (trace w) = [] /\
         done_count IsGenerating (trace w) = 0 /\
         done_count UiStream (trace w) = 0 /\
         calls_of AiSuggestor (trace w) = []).
Proof.
  intros Hbranch Hempty Hfull Hfuel. unfold inquires in Hbranch.
  pose proof (prepared_streamCalls E formData skip stored) as Hk.
  eexists. split; [|split; [|split; [|split; [|split]]]].
  - rewrite submit_eq.
    apply (processEvents_generate E N); rewrite ?Hk; assumption.
  - at_start E formData skip stored.
    split_pieces; read_trace; lia.
  - at_start E formData skip stored. reflexivity.
  - at_start E formData skip stored.
    split_pieces; read_trace; now rewrite app_nil_r.
  - exists (ai_view (aiState (prepared E formData skip stored))
                    (attempts_messages E (S N) 0
                       (messages (prepared E formData skip stored)))).
    at_start E formData skip stored.
    split_pieces; read_trace; reflexivity.
  - intros fuel' Hle. eexists.
    split; [|split; [|split; [|split; [|split; [|split]]]]].
    + rewrite submit_eq. apply processEvents_pending; [assumption|].
      rewrite Hk. intros j Hj. apply Hempty. lia.
    + at_start E formData skip stored.
      split_pieces; read_trace; lia.
    + at_start E formData skip stored.
      split_pieces; read_trace; reflexivity.
    + at_start E formData skip stored.
      split_pieces; read_trace; reflexivity.
    + at_start E formData skip stored.
      split_pieces; read_trace; reflexivity.
    + at_start E formData skip stored.
      split_pieces; read_trace; reflexivity.
    + at_start E formData skip stored.
      autorewrite with trace_app.
      rewrite (attempts_events_other_calls E AiSuggestor) by discriminate.
      split_pieces; read_trace; reflexivity.
Qed.

Lemma retry_until_text_witness :
  exists w',
    submitUserInput env_retry 3 (Some sample_form) false (world0 []) =
    (Finished, w') /\
    List.length (calls_of Writer (trace w')) = 3 /\
    streamCalls w' = 3 /\
    marks_of Writer (trace w') = alternating 3 /\
    (exists st,
        committed (trace w') =
        [st ++ [mkMessage assistant (Text (attempt_text env_retry 2))]]) /\
    (forall fuel', fuel' <= 2 ->
       exists w,
         submitUserInput env_retry fuel' (Some sample_form) false (world0 []) =
         (Pending, w) /\
         List.length (calls_of Writer (trace w)) = fuel' /\
         marks_of Writer (trace w) = alternating fuel' /\
         committed (trace w) = [] /\
         done_count IsGenerating (trace w) = 0 /\
         done_count UiStream (trace w) = 0 /\
         calls_of AiSuggestor (trace w) = []).
Proof.
  apply (retry_until_text env_retry (Some sample_form) false [] 2 3).
  - reflexivity.
  - intros j Hj. destruct j as [|[|j]]; [reflexivity | reflexivity | lia].
  - discriminate.
  - lia.
Defined.

(* ----------------------------------------------------------------- *)
(** *** Streams are closed once *)


Lemma well_closed_done_count (ops : list StreamOp) :
  well_closed ops -> List.length (filter is_done ops) = 1.
Proof.
  intros [init [mid [final [-> Hmid]]]].
  simpl. now rewrite filter_app, (pushes_no_done _ Hmid).
Qed.

Lemma well_closed_last (s : StreamId) (tr : list Event) :
  well_closed (stream_ops s tr) -> done_once_last s tr.
Proof.
  intros [init [mid [final [Heq Hmid]]]].
  exists (OpCreate init :: mid), final. split.
  - now rewrite Heq.
  - simpl. now apply pushes_no_done.
Qed.


Section Closing.

Variable E : Env.

Lemma inquire_well_closed (skip : bool) (turns window msgs ai : list CoreMessage)
      (s : StreamId) :
  In s exchange_streams ->
  well_closed
    (stream_ops s ((creation_events ++ user_events window turns) ++
                   decision_events skip msgs ++ inquire_events E msgs ai)).
Proof.
  intros Hs. unfold well_closed.
  unfold creation_events, user_events, decision_events, inquire_events.
  destruct turns, skip; cbn [negb]; autorewrite with trace_app;
    destruct Hs as [<- | [<- | [<- | []]]];
    rewrite ?(quiet_flags _ (agent_ui_quiet (inquiryUi E msgs)))
      by (first [now left | now right]);
    cbn;
    try (now (exists (Some (VBool true)), [], None));
    try (now (exists (Some (VBool false)), [], (Some (VBool false))));
    (exists None, (stream_ops UiStream (agent_ui (inquiryUi E msgs))), None;
     split; [reflexivity | apply quiet_pushes, agent_ui_quiet]).
Qed.


(** A run that has finished took one of the two paths. *)
Lemma finished_cases (fuel : nat) (formData : option FormData) (skip : bool)
      (stored : list CoreMessage) (w' : World) :
  submitUserInput E fuel formData skip (world0 stored) = (Finished, w') ->
  let w := prepared E formData skip stored in
  (inquires E formData skip stored = true /\
   trace w' = trace w ++ decision_events skip (messages w) ++
              inquire_events E (messages w) (currentAi w)) \/
  (inquires E formData skip stored = false /\
   exists n,
     n < fuel /\
     (forall j, j < n -> attempt_text E j = EmptyString) /\
     attempt_text E n <> EmptyString /\
     let msgs := attempts_messages E (S n) 0 (messages w) in
     trace w' = trace w ++ decision_events skip (messages w) ++
                opening_events ++
                attempts_events E (S n) 0 (messages w) ++
                closing_events E (attempt_result E n) msgs
                               (ai_view (aiState w) msgs)).
Proof.
  intros H w. rewrite submit_eq in H. fold w in H.
  assert (Hk : streamCalls w = 0) by apply prepared_streamCalls.
  unfold inquires. fold w.
  destruct (String.eqb (next (chosen E skip (messages w))) "inquire") eqn:Hb.
  - left. split; [reflexivity|].
    rewrite processEvents_inquire in H by assumption.
    now inversion H.
  - right. split; [reflexivity|].
    destruct (first_nonempty E fuel 0) as [Hall | [n [Hn [He Hf]]]].
    + rewrite processEvents_pending in H; [discriminate | assumption|].
      now rewrite Hk.
    + exists n. repeat split; try assumption.
      rewrite (processEvents_generate E n) in H;
        rewrite ?Hk; try assumption.
      rewrite Hk in H. now inversion H.
Qed.

End Closing.

(* ----------------------------------------------------------------- *)
(** *** The window handed to the agents *)

Lemma pending_case (E : Env) (fuel : nat) (formData : option FormData)
      (skip : bool) (stored : list CoreMessage) (w' : World) :
  submitUserInput E fuel formData skip (world0 stored) = (Pending, w') ->
  let w := prepared E formData skip stored in
  inquires E formData skip stored = false /\
  (forall j, j < fuel -> attempt_text E j = EmptyString) /\
  trace w' = trace w ++ decision_events skip (messages w) ++
             opening_events ++ attempts_events E fuel 0 (messages w).
Proof.
  intros H w. rewrite submit_eq in H. fold w in H.
  assert (Hk : streamCalls w = 0) by apply prepared_streamCalls.
  unfold inquires. fold w.
  destruct (String.eqb (next (chosen E skip (messages w))) "inquire") eqn:Hb.
  - rewrite processEvents_inquire in H by assumption. discriminate.
  - split; [reflexivity|].
    destruct (first_nonempty E fuel 0) as [Hall | [n [Hn [He Hf]]]].
    + split; [assumption|].
      rewrite processEvents_pending in H; rewrite ?Hk; try assumption.
      rewrite Hk in H. now inversion H.
    + rewrite (processEvents_generate E n) in H; rewrite ?Hk; try assumption.
      discriminate.
Qed.



Lemma prepared_messages (E : Env) (formData : option FormData)
      (skip : bool) (stored : list CoreMessage) :
  messages (prepared E formData skip stored) =
  splice_front stored ++ user_turns E formData skip.
Proof. now rewrite prepare_eq. Qed.












(* ----------------------------------------------------------------- *)
(** *** One call of the writer *)

Lemma writer_eq (E : Env) (w : World) :
  writer E w =
  (attempt_result E (streamCalls w),
   mkWorld (messages w ++ writer_pushes (attempt_result E (streamCalls w)))
           (aiState w) (S (streamCalls w))
           (trace w ++ attempt_out E (streamCalls w) ++
            [EvStream UiStream (OpUpdate (VNode NullNode))])).
Proof.
  unfold attempt_result, attempt_out, writer_pushes.
  cbv [writer bind stream_op emit emits streamText messages_push ret].
  cbn [messages aiState streamCalls trace].
  destruct (for_await (fullStream E (streamCalls w)) locals0) as [l out].
  cbn [fst snd messages aiState streamCalls trace].
  destruct (0 <? List.length (toolResponses l));
    cbn [messages aiState streamCalls trace];
    repeat rewrite <- app_assoc; reflexivity.
Qed.

(** C4 (as amended).  Within one call of the writer every tool-invocation
    part of the stream is recorded, in order, in the tool-call list, while
    tool-result parts are not recorded: the tool-result list stays empty.
    After the stream has ended the assistant turn (the text followed by
    the tool calls) is pushed onto the conversation, and it is the only
    turn pushed: no tool turn follows. *)
Theorem writer_records_calls (E : Env) (w : World) :
  toolCalls (fst (writer E w)) = calls_in (fullStream E (streamCalls w)) /\
  toolResponses (fst (writer E w)) = [] /\
  messages (snd (writer E w)) =
  messages w ++
  [mkMessage assistant
     (Parts (TextPart (fullResponse (fst (writer E w))) ::
             map CallPart (calls_in (fullStream E (streamCalls w)))))].
Proof.
  rewrite writer_eq. cbn [fst snd messages].
  rewrite writer_pushes_attempt. unfold assistantTurn, attempt_result.
  rewrite for_await_toolCalls, for_await_toolResponses.
  repeat split.
Qed.

(** C4 as it was stated fails: a tool-result part is not recorded. *)
Lemma tool_results_dropped :
  ~ (forall (E : Env) (w : World),
        toolResponses (fst (writer E w)) =
        results_in (fullStream E (streamCalls w))).
Proof.
  intros H.
  specialize (H (env_stream [ToolResultDelta
                               (mkToolResult "call-1" "search" "tip")])
                (world0 [])).
  vm_compute in H. discriminate.
Qed.

(* ----------------------------------------------------------------- *)
(** *** The inquiry branch *)

Lemma agent_ui_only_ui (s : StreamId) (ops : list AgentUiOp) :
  s <> UiStream -> stream_ops s (agent_ui ops) = [].
Proof.
  intros Hs. induction ops as [|op ops IH]; [reflexivity|].
  unfold stream_ops in *. simpl. rewrite IH.
  destruct op, s; try contradiction; reflexivity.
Qed.

Lemma inquire_branch_outcome (E : Env) (fuel : nat)
      (formData : option FormData) (skip : bool) (stored : list CoreMessage) :
  inquires E formData skip stored = true ->
  let w := prepared E formData skip stored in
  exists w',
    submitUserInput E fuel formData skip (world0 stored) = (Finished, w') /\
    committed (trace w') =
      [currentAi w ++ [inquiryTurn (inquiryResult E (messages w))]] /\
    stream_ops CodeStream (trace w') = [] /\
    calls_of Writer (trace w') = [] /\
    stream_replay (stream_ops IsCollapsed (trace w')) =
      Some (mkStream [VBool false] true) /\
    stream_replay (stream_ops IsGenerating (trace w')) =
      Some (mkStream [VBool true] true) /\
    forall s, In s exchange_streams -> well_closed (stream_ops s (trace w')).
Proof.
  intros Hb w. unfold inquires in Hb. fold w in Hb.
  eexists. split; [|split; [|split; [|split; [|split; [|split]]]]].
  - rewrite submit_eq. fold w. now apply processEvents_inquire.
  - cbn [trace]. unfold w. rewrite prepared_trace.
    split_pieces; read_trace; reflexivity.
  - cbn [trace]. unfold w. rewrite prepared_trace.
    unfold creation_events, user_events, decision_events, inquire_events.
    autorewrite with trace_app.
    rewrite (agent_ui_only_ui CodeStream) by discriminate.
    destruct (user_turns E formData skip), skip; reflexivity.
  - cbn [trace]. unfold w. rewrite prepared_trace.
    split_pieces; read_trace; reflexivity.
  - cbn [trace]. unfold w. rewrite prepared_trace.
    unfold creation_events, user_events, decision_events, inquire_events.
    autorewrite with trace_app.
    rewrite (agent_ui_only_ui IsCollapsed) by discriminate.
    destruct (user_turns E formData skip), skip; reflexivity.
  - cbn [trace]. unfold w. rewrite prepared_trace.
    unfold creation_events, user_events, decision_events, inquire_events.
    autorewrite with trace_app.
    rewrite (agent_ui_only_ui IsGenerating) by discriminate.
    destruct (user_turns E formData skip), skip; reflexivity.
  - intros s Hs. cbn [trace]. unfold w. rewrite prepared_trace.
    now apply inquire_well_closed.
Qed.

(** C5.  The inquiry scenario of the specification, evaluated: the
    committed conversation gains one assistant turn, ["inquiry: "]
    followed by the question, the code value stream is never created or
    updated and [isCollapsed] ends with [false]; but [isGenerating] is
    closed by [done()] without a value, so its terminal value is the [true]
    it was created with, where the generation branch closes it with
    [done(false)]. *)
Theorem inquiry_leaves_isGenerating_true :
  exists w' st,
    submitUserInput env_symbol 0 (Some sample_form) false (world0 []) =
      (Finished, w') /\
    committed (trace w') =
      [st ++ [mkMessage assistant
                (Text "inquiry: What should the token symbol be?")]] /\
    filter is_assistant st = [] /\
    stream_ops CodeStream (trace w') = [] /\
    stream_replay (stream_ops IsCollapsed (trace w')) =
      Some (mkStream [VBool false] true) /\
    stream_replay (stream_ops IsGenerating (trace w')) =
      Some (mkStream [VBool true] true) /\
    stream_replay (stream_ops IsGenerating (trace w')) <>
      Some (mkStream [VBool false] true).
Proof.
  eexists.
  exists (currentAi (prepared env_symbol (Some sample_form) false [])).
  split; [vm_compute; reflexivity|].
  vm_compute. repeat split. discriminate.
Qed.

(** The sibling path: the generation branch of the same submission closes
    [isGenerating] with the value [false]. *)
Lemma generation_closes_isGenerating_false :
  exists w',
    submitUserInput env_retry 3 (Some sample_form) false (world0 []) =
      (Finished, w') /\
    stream_replay (stream_ops IsGenerating (trace w')) =
      Some (mkStream [VBool false] true).
Proof. eexists. split; vm_compute; reflexivity. Qed.

(** C10.  When the inquiry agent returns nothing, or an object without a
    question, the inquiry branch still finishes as usual: it commits an
    assistant turn with content ["inquiry: undefined"] and each of the
    three streams is closed by one [done]. *)
Theorem inquiry_without_question (E : Env) (fuel : nat)
        (formData : option FormData) (skip : bool)
        (stored : list CoreMessage) :
  inquires E formData skip stored = true ->
  inquiryResult E (messages (prepared E formData skip stored)) = None \/
  inquiryResult E (messages (prepared E formData skip stored)) =
    Some (mkInquiry None) ->
  exists w',
    submitUserInput E fuel formData skip (world0 stored) = (Finished, w') /\
    committed (trace w') =
      [currentAi (prepared E formData skip stored) ++
       [mkMessage assistant (Text "inquiry: undefined")]] /\
    forall s, In s exchange_streams ->
      done_count s (trace w') = 1 /\ done_once_last s (trace w').
Proof.
  intros Hb Hq.
  destruct (inquire_branch_outcome E fuel formData skip stored Hb)
    as [w' [Hrun [Hc [_ [_ [_ [_ Hwc]]]]]]].
  exists w'. split; [assumption|]. split.
  - rewrite Hc. destruct Hq as [-> | ->]; reflexivity.
  - intros s Hs. split.
    + now apply well_closed_done_count, Hwc.
    + now apply well_closed_last, Hwc.
Qed.

Lemma inquiry_without_question_witness :
  exists w',
    submitUserInput (env_inquire None) 0 (Some sample_form) false (world0 []) =
      (Finished, w') /\
    committed (trace w') =
      [currentAi (prepared (env_inquire None) (Some sample_form) false []) ++
       [mkMessage assistant (Text "inquiry: undefined")]] /\
    forall s, In s exchange_streams ->
      done_count s (trace w') = 1 /\ done_once_last s (trace w').
Proof.
  apply (inquiry_without_question (env_inquire None) 0 (Some sample_form)
                                  false []).
  - reflexivity.
  - left. reflexivity.
Defined.

(* ----------------------------------------------------------------- *)
(** *** Text fragments, errors and the code value stream *)

Lemma followups_app (a b : list Event) :
  followups (a ++ b) = followups a ++ followups b.
Proof. apply flat_map_app. Qed.

#[export] Hint Rewrite followups_app : trace_app.

Lemma code_updates_agent_ui (ops : list AgentUiOp) :
  code_updates (agent_ui ops) = [].
Proof.
  induction ops as [|op ops IH]; [reflexivity|].
  unfold code_updates in *. simpl. rewrite IH. now destruct op.
Qed.

Lemma for_await_code_updates_cons (d : Delta) (ds : list Delta) (l : Locals) :
  code_updates (snd (for_await (d :: ds) l)) =
  code_updates (snd (on_delta d l)) ++
  code_updates (snd (for_await ds (fst (on_delta d l)))).
Proof. now rewrite for_await_cons, <- code_updates_app. Qed.

(** A stream of non-empty text fragments pushes the running
    concatenation, fragment by fragment. *)
Lemma text_stream_updates (frags : list string) :
  Forall (fun t => t <> EmptyString) frags ->
  forall l,
    code_updates (snd (for_await (map TextDelta frags) l)) =
    running (fullResponse l) frags.
Proof.
  induction 1 as [|t frags Ht _ IH]; intros l; [reflexivity|].
  cbn [map]. rewrite for_await_code_updates_cons, on_delta_code_updates.
  apply truthy_true in Ht. rewrite Ht. cbn [app running]. f_equal.
  rewrite IH, on_delta_fullResponse. reflexivity.
Qed.

Lemma text_of_fragments (frags : list string) :
  text_of (map TextDelta frags) = concat_strings frags.
Proof.
  induction frags as [|t frags IH]; [reflexivity|].
  cbn. now rewrite IH.
Qed.

Lemma no_error_in_text (frags : list string) :
  existsb is_error (map TextDelta frags) = false.
Proof. induction frags as [|t frags IH]; [reflexivity | exact IH]. Qed.


(** Every value pushed is non-empty and a prefix of the final text. *)
Lemma pushed_is_prefix (ds : list Delta) :
  forall l v,
    In v (code_updates (snd (for_await ds l))) ->
    v <> EmptyString /\
    exists rest, fullResponse l +++ text_of ds = v +++ rest.
Proof.
  induction ds as [|d ds IH]; intros l v Hin; [contradiction|].
  rewrite for_await_code_updates_cons, on_delta_code_updates in Hin.
  apply in_app_or in Hin as [Hin | Hin].
  - destruct d as [t| | | |]; try contradiction.
    destruct (truthy t) eqn:Ht; [|contradiction].
    destruct Hin as [<- | []]. split.
    + apply append_nonempty_r. now apply truthy_true.
    + exists (text_of ds). cbn. now rewrite append_assoc.
  - destruct (IH _ _ Hin) as [Hv [rest Hrest]]. split; [assumption|].
    exists rest. rewrite on_delta_fullResponse in Hrest.
    cbn [text_of]. now rewrite <- append_assoc.
Qed.

Lemma append_empty_inv (a b : string) :
  a +++ b = EmptyString -> a = EmptyString.
Proof.
  intros H. apply length_zero_iff. apply length_zero_iff in H.
  rewrite length_append in H. lia.
Qed.

(** An attempt that returns an empty text has pushed nothing. *)
Lemma empty_attempt_silent (E : Env) (k : nat) :
  attempt_text E k = EmptyString -> code_updates (attempt_out E k) = [].
Proof.
  unfold attempt_text, attempt_result, attempt_out. intros Hempty.
  rewrite for_await_fullResponse in Hempty. cbn in Hempty.
  destruct (code_updates (snd (for_await (fullStream E k) locals0)))
    as [|v vs] eqn:Hc; [reflexivity|].
  destruct (pushed_is_prefix (fullStream E k) locals0 v) as [Hv [rest Hr]].
  { rewrite Hc. now left. }
  cbn in Hr. rewrite Hempty in Hr. symmetry in Hr.
  apply append_empty_inv in Hr. contradiction.
Qed.

Lemma attempts_events_code_updates (E : Env) (n : nat) :
  forall k msgs,
    code_updates (attempts_events E n k msgs) =
    flat_map (fun j => code_updates (attempt_out E j)) (seq k n).
Proof.
  induction n as [|n IH]; intros k msgs; [reflexivity|].
  cbn [attempts_events seq flat_map]. unfold attempt_events.
  autorewrite with trace_app. rewrite IH. cbn. now rewrite app_nil_r.
Qed.

(** After [n] empty attempts only attempt [n + 1] has pushed values. *)
Lemma code_updates_last_attempt (E : Env) (n : nat) (msgs : list CoreMessage) :
  (forall j, j < n -> attempt_text E j = EmptyString) ->
  code_updates (attempts_events E (S n) 0 msgs) =
  code_updates (attempt_out E n).
Proof.
  intros Hempty. rewrite attempts_events_code_updates.
  rewrite seq_S, flat_map_app. cbn. rewrite app_nil_r.
  replace (flat_map (fun j => code_updates (attempt_out E j)) (seq 0 n))
    with (@nil string); [reflexivity|].
  symmetry.
  induction n as [|n IH]; [reflexivity|].
  rewrite seq_S, flat_map_app. cbn. rewrite app_nil_r.
  rewrite IH by (intros j Hj; apply Hempty; lia).
  apply empty_attempt_silent, Hempty. lia.
Qed.

Lemma attempts_events_followups (E : Env) (n : nat) :
  forall k msgs, followups (attempts_events E n k msgs) = [].
Proof.
  assert (Hd : forall d l, followups (snd (on_delta d l)) = []).
  { intros d l. destruct d as [t| | | |]; simpl; try reflexivity.
    destruct (truthy t); simpl; [|reflexivity].
    now destruct ((String.length (fullResponse l) =? 0)
                  && (0 <? String.length t)). }
  assert (Hf : forall ds l, followups (snd (for_await ds l)) = []).
  { induction ds as [|d ds IH]; intros l; [reflexivity|].
    rewrite for_await_cons. cbn [snd]. now rewrite followups_app, Hd, IH. }
  induction n as [|n IH]; intros k msgs; [reflexivity|].
  cbn [attempts_events]. unfold attempt_events, attempt_out.
  autorewrite with trace_app. now rewrite Hf, IH.
Qed.

(* ----------------------------------------------------------------- *)
(** *** An error part in the stream *)

Lemma for_await_error (pre post : list Delta) :
  let l := fst (on_delta ErrorDelta (fst (for_await pre locals0))) in
  for_await (pre ++ ErrorDelta :: post) locals0 =
  (fst (for_await post l),
   snd (for_await pre locals0) ++ snd (for_await post l)).
Proof.
  intros l. rewrite for_await_app, for_await_cons. cbn [fst snd app].
  reflexivity.
Qed.

Lemma error_result (pre post : list Delta) :
  let r := fst (for_await (pre ++ ErrorDelta :: post) locals0) in
  hasError r = true /\
  fullResponse r = text_of pre +++ errorNotice +++ text_of post /\
  fullResponse r <> EmptyString /\
  toolCalls r = calls_in pre ++ calls_in post.
Proof.
  intros r. unfold r.
  rewrite for_await_hasError, for_await_fullResponse, for_await_toolCalls.
  rewrite existsb_app, text_of_app. cbn [existsb is_error text_of contribution].
  rewrite orb_true_r. cbn [locals0 fullResponse toolCalls hasError orb app
                           String.append].
  repeat split.
  - apply append_nonempty_r, append_nonempty_l, errorNotice_nonempty.
  - unfold calls_in. now rewrite flat_map_app.
Qed.

Lemma attempts_messages_last (E : Env) (n : nat) :
  forall k msgs,
    attempts_messages E (S n) k msgs =
    attempts_messages E n k msgs ++ [assistantTurn (attempt_result E (k + n))].
Proof.
  induction n as [|n IH]; intros k msgs.
  - cbn [attempts_messages]. now rewrite writer_pushes_attempt, Nat.add_0_r.
  - cbn [attempts_messages] in *. rewrite IH.
    now replace (S k + n) with (k + S n) by lia.
Qed.

(** The exchange whose accepted attempt carries an error part. *)
Lemma error_exchange (E : Env) (fuel : nat) (formData : option FormData)
      (skip : bool) (stored : list CoreMessage) (N : nat)
      (pre post : list Delta) :
  inquires E formData skip stored = false ->
  (forall j, j < N -> attempt_text E j = EmptyString) ->
  fullStream E N = pre ++ ErrorDelta :: post ->
  N < fuel ->
  exists w' st,
    submitUserInput E fuel formData skip (world0 stored) = (Finished, w') /\
    List.length (calls_of Writer (trace w')) = S N /\
    committed (trace w') =
      [st ++ [mkMessage assistant (Text (attempt_text E N))]] /\
    calls_of AiSuggestor (trace w') = [] /\
    followups (trace w') = [] /\
    code_updates (trace w') = code_updates (attempt_out E N) /\
    In (assistantTurn (attempt_result E N)) (messages w').
Proof.
  intros Hbranch Hempty Hstream Hfuel. unfold inquires in Hbranch.
  pose proof (prepared_streamCalls E formData skip stored) as Hk.
  destruct (error_result pre post) as [Herr [_ [Hfull _]]].
  rewrite <- Hstream in Herr, Hfull.
  fold (attempt_result E N) in Herr, Hfull.
  eexists.
  exists (ai_view (aiState (prepared E formData skip stored))
                  (attempts_messages E (S N) 0
                     (messages (prepared E formData skip stored)))).
  split; [|split; [|split; [|split; [|split; [|split]]]]].
  - rewrite submit_eq.
    apply (processEvents_generate E N); rewrite ?Hk; assumption.
  - at_start E formData skip stored. cbn [Nat.add].
    unfold closing_events. rewrite Herr.
    split_pieces; read_trace; lia.
  - at_start E formData skip stored. cbn [Nat.add].
    unfold closing_events. rewrite Herr.
    split_pieces; read_trace; reflexivity.
  - at_start E formData skip stored. cbn [Nat.add].
    unfold closing_events. rewrite Herr. autorewrite with trace_app.
    rewrite (attempts_events_other_calls E AiSuggestor) by discriminate.
    unfold creation_events, user_events, decision_events, opening_events.
    destruct (user_turns E formData skip), skip; reflexivity.
  - at_start E formData skip stored. cbn [Nat.add].
    unfold closing_events. rewrite Herr. autorewrite with trace_app.
    rewrite attempts_events_followups.
    unfold creation_events, user_events, decision_events, opening_events.
    destruct (user_turns E formData skip), skip; reflexivity.
  - at_start E formData skip stored. cbn [Nat.add].
    unfold closing_events. rewrite Herr. autorewrite with trace_app.
    rewrite (code_updates_last_attempt E N) by assumption.
    unfold creation_events, user_events, decision_events, opening_events.
    destruct (user_turns E formData skip), skip; cbn;
      now rewrite app_nil_r.
  - cbn [messages]. rewrite attempts_messages_last, Hk.
    apply in_or_app. right. now left.
Qed.

(** C7.  When the stream of a writer attempt carries an error part, the
    attempt returns [hasError = true] and a text that holds the fixed
    notice at the place of the error; the parts after the error are
    consumed as usual (their text, tool calls and code-stream updates are
    all there).  The text being non-empty, the retry loop accepts this
    attempt as the final one, and neither the suggestion agent nor its
    follow-up section is run. *)
Theorem error_attempt_accepted (E : Env) (fuel : nat)
        (formData : option FormData) (skip : bool)
        (stored : list CoreMessage) (N : nat) (pre post : list Delta) :
  inquires E formData skip stored = false ->
  (forall j, j < N -> attempt_text E j = EmptyString) ->
  fullStream E N = pre ++ ErrorDelta :: post ->
  N < fuel ->
  hasError (attempt_result E N) = true /\
  attempt_text E N = text_of pre +++ errorNotice +++ text_of post /\
  attempt_text E N <> EmptyString /\
  toolCalls (attempt_result E N) = calls_in pre ++ calls_in post /\
  attempt_result E N =
    fst (for_await post
           (fst (on_delta ErrorDelta (fst (for_await pre locals0))))) /\
  attempt_out E N =
    snd (for_await pre locals0) ++
    snd (for_await post
           (fst (on_delta ErrorDelta (fst (for_await pre locals0))))) /\
  exists w' st,
    submitUserInput E fuel formData skip (world0 stored) = (Finished, w') /\
    List.length (calls_of Writer (trace w')) = S N /\
    committed (trace w') =
      [st ++ [mkMessage assistant (Text (attempt_text E N))]] /\
    calls_of AiSuggestor (trace w') = [] /\
    followups (trace w') = [].
Proof.
  intros Hbranch Hempty Hstream Hfuel.
  destruct (error_result pre post) as [Herr [Htext [Hfull Hcalls]]].
  unfold attempt_text, attempt_result, attempt_out. rewrite Hstream.
  repeat (split; [assumption|]).
  rewrite for_await_error. cbn [fst snd].
  split; [reflexivity|]. split; [reflexivity|].
  destruct (error_exchange E fuel formData skip stored N pre post
              Hbranch Hempty Hstream Hfuel)
    as [w' [st [Hrun [Hn [Hc [Hs [Hf _]]]]]]].
  exists w', st. unfold attempt_text, attempt_result in Hc.
  rewrite Hstream, for_await_error in Hc. cbn [fst snd] in Hc.
  split; [exact Hrun|]. split; [exact Hn|]. split; [exact Hc|].
  split; [exact Hs | exact Hf].
Qed.

Lemma error_attempt_accepted_witness :
  hasError (attempt_result env_error 0) = true /\
  attempt_text env_error 0 =
    text_of [TextDelta "pragma "] +++ errorNotice +++
    text_of [ToolCallDelta sample_call] /\
  attempt_text env_error 0 <> EmptyString /\
  toolCalls (attempt_result env_error 0) =
    calls_in [TextDelta "pragma "] ++ calls_in [ToolCallDelta sample_call] /\
  attempt_result env_error 0 =
    fst (for_await [ToolCallDelta sample_call]
           (fst (on_delta ErrorDelta
                   (fst (for_await [TextDelta "pragma "] locals0))))) /\
  attempt_out env_error 0 =
    snd (for_await [TextDelta "pragma "] locals0) ++
    snd (for_await [ToolCallDelta sample_call]
           (fst (on_delta ErrorDelta
                   (fst (for_await [TextDelta "pragma "] locals0))))) /\
  exists w' st,
    submitUserInput env_error 1 (Some sample_form) false (world0 []) =
      (Finished, w') /\
    List.length (calls_of Writer (trace w')) = 1 /\
    committed (trace w') =
      [st ++ [mkMessage assistant (Text (attempt_text env_error 0))]] /\
    calls_of AiSuggestor (trace w') = [] /\
    followups (trace w') = [].
Proof.
  apply (error_attempt_accepted env_error 1 (Some sample_form) false [] 0
           [TextDelta "pragma "] [ToolCallDelta sample_call]).
  - reflexivity.
  - intros j Hj. lia.
  - reflexivity.
  - lia.
Defined.




(* ----------------------------------------------------------------- *)
(** *** Skipping the decision *)

Lemma skip_user_turns (E : Env) (formData : option FormData) :
  user_turns E formData true = [mkMessage user (Text skipSentinel)].
Proof. reflexivity. Qed.

Lemma skip_generates (E : Env) (formData : option FormData)
      (stored : list CoreMessage) :
  inquires E formData true stored = false.
Proof. reflexivity. Qed.

Lemma closing_events_late (E : Env) (r : Locals) (msgs ai : list CoreMessage) :
  calls_of RequirementsManager (closing_events E r msgs ai) = [] /\
  calls_of Inquire (closing_events E r msgs ai) = [] /\
  stream_ops IsCollapsed (closing_events E r msgs ai) = [] /\
  stream_ops CodeStream (closing_events E r msgs ai) = [].
Proof.
  unfold closing_events, suggest_events.
  destruct (hasError r); cbn [negb]; autorewrite with trace_app;
    rewrite ?(quiet_calls _ (agent_ui_quiet _)),
            ?(agent_ui_only_ui IsCollapsed), ?(agent_ui_only_ui CodeStream)
      by discriminate;
    repeat split.
Qed.

(** The events of a skipped submission that is given fuel for at least
    one attempt: no decision, then the generation branch. *)
Lemma skip_trace (E : Env) (fuel : nat) (formData : option FormData)
      (stored : list CoreMessage) :
  let msgs := splice_front stored ++ [mkMessage user (Text skipSentinel)] in
  exists n tail,
    trace (snd (submitUserInput E (S fuel) formData true (world0 stored))) =
      (creation_events ++ user_events (splice_front stored)
                            [mkMessage user (Text skipSentinel)]) ++
      opening_events ++ attempts_events E (S n) 0 msgs ++ tail /\
    calls_of RequirementsManager tail = [] /\
    calls_of Inquire tail = [] /\
    stream_ops IsCollapsed tail = [] /\
    stream_ops CodeStream tail = [].
Proof.
  intros msgs.
  destruct (submitUserInput E (S fuel) formData true (world0 stored))
    as [[|] w'] eqn:Hrun; cbn [snd].
  - destruct (finished_cases E _ _ _ _ _ Hrun)
      as [[Hb _] | [_ [n [_ [_ [_ ->]]]]]];
      [rewrite skip_generates in Hb; discriminate|].
    rewrite prepared_trace, prepared_messages, skip_user_turns.
    fold msgs. cbn [decision_events negb app].
    exists n. eexists. split; [reflexivity|].
    apply closing_events_late.
  - destruct (pending_case E _ _ _ _ _ Hrun) as [_ [_ ->]].
    rewrite prepared_trace, prepared_messages, skip_user_turns.
    fold msgs. cbn [decision_events negb app].
    exists fuel, []. rewrite app_nil_r. repeat split.
Qed.

(** C8.  For a submission with [skip = true] the decision agent is not
    invoked and the decision is [{ next: "proceed" }]; the user turn that
    is appended has the sentinel as content; and the generation branch
    runs: the inquiry agent is not called, [isCollapsed] is closed with
    [true], the code value stream is created and the writer is called
    with the window followed by the sentinel turn. *)
Theorem skip_bypasses_decision (E : Env) (fuel : nat)
        (formData : option FormData) (stored : list CoreMessage) :
  calls_of RequirementsManager
    (trace (snd (submitUserInput E (S fuel) formData true (world0 stored))))
    = [] /\
  fst (decide E true (prepared E formData true stored)) = mkAction "proceed" /\
  inquires E formData true stored = false /\
  userContent E formData true = Some skipSentinel /\
  messages (prepared E formData true stored) =
    splice_front stored ++ [mkMessage user (Text skipSentinel)] /\
  calls_of Inquire
    (trace (snd (submitUserInput E (S fuel) formData true (world0 stored))))
    = [] /\
  stream_ops IsCollapsed
    (trace (snd (submitUserInput E (S fuel) formData true (world0 stored))))
    = [OpCreate (Some (VBool false)); OpDone (Some (VBool true))] /\
  hd_error (stream_ops CodeStream
    (trace (snd (submitUserInput E (S fuel) formData true (world0 stored)))))
    = Some (OpCreate None) /\
  hd_error (calls_of Writer
    (trace (snd (submitUserInput E (S fuel) formData true (world0 stored)))))
    = Some (splice_front stored ++ [mkMessage user (Text skipSentinel)]).
Proof.
  destruct (skip_trace E fuel formData stored)
    as [n [tail [-> [Hrm [Hinq [Hcol Hcode]]]]]].
  split; [|split; [|split; [|split; [|split; [|split; [|split; [|split]]]]]]].
  - autorewrite with trace_app. rewrite Hrm.
    now rewrite (attempts_events_other_calls E RequirementsManager)
      by discriminate.
  - reflexivity.
  - reflexivity.
  - reflexivity.
  - now rewrite prepared_messages.
  - autorewrite with trace_app. rewrite Hinq.
    now rewrite (attempts_events_other_calls E Inquire) by discriminate.
  - autorewrite with trace_app. rewrite Hcol.
    now rewrite (attempts_events_flags E IsCollapsed) by (now right).
  - autorewrite with trace_app. reflexivity.
  - cbn [attempts_events]. unfold attempt_events.
    autorewrite with trace_app.
    rewrite (quiet_calls _ (attempt_out_quiet E 0)). reflexivity.
Qed.

(** The sentinel, character by character: [{"action": "skip"}]. *)
Lemma skipSentinel_chars :
  list_ascii_of_string skipSentinel =
  map ascii_of_nat
      [123; 34; 97; 99; 116; 105; 111; 110; 34; 58; 32; 34; 115; 107; 105;
       112; 34; 125].
Proof. reflexivity. Qed.

(* ================================================================= *)
(** ** Further properties of the writer *)

(** X1.  Parts without a [case] in the [switch], tool results and empty text
    fragments change nothing: the writer behaves as on the stream with
    those parts removed. *)
Lemma insignificant_parts_ignored (ds : list Delta) (l : Locals) :
  for_await ds l = for_await (filter significant ds) l.
Proof.
  revert l. induction ds as [|d ds IH]; intros l; [reflexivity|].
  cbn [filter]. destruct (significant d) eqn:Hs.
  - rewrite !for_await_cons, !IH. reflexivity.
  - rewrite for_await_cons.
    assert (Hd : on_delta d l = (l, [])).
    { destruct d as [t| | | |]; try discriminate; try reflexivity.
      cbn in Hs. cbn. now rewrite Hs. }
    rewrite Hd. cbn [fst snd app]. rewrite IH.
    now destruct (for_await (filter significant ds) l).
Qed.

Lemma text_of_empty_iff (ds : list Delta) :
  text_of ds = EmptyString <->
  fragments ds = [] /\ existsb is_error ds = false.
Proof.
  induction ds as [|d ds IH]; [cbn; tauto|].
  unfold fragments in *. cbn [text_of flat_map existsb].
  destruct d as [t| | | |]; cbn [contribution is_error orb String.append];
    try exact IH.
  - destruct (truthy t) eqn:Ht.
    + split.
      * intros H. apply append_empty_inv in H.
        apply truthy_true in Ht. contradiction.
      * intros [H _]. discriminate.
    + apply truthy_false in Ht. subst t. exact IH.
  - split; [discriminate | intros [_ H]; discriminate].
Qed.

Lemma attempt_text_empty_iff (E : Env) (k : nat) :
  attempt_text E k = EmptyString <->
  fragments (fullStream E k) = [] /\
  existsb is_error (fullStream E k) = false.
Proof.
  unfold attempt_text, attempt_result.
  rewrite for_await_fullResponse. cbn [locals0 fullResponse String.append].
  apply text_of_empty_iff.
Qed.

Lemma ui_ops_buffer_nonempty (ds : list Delta) :
  forall l,
    fullResponse l <> EmptyString ->
    stream_ops UiStream (snd (for_await ds l)) = [].
Proof.
  induction ds as [|d ds IH]; intros l Hl; [reflexivity|].
  rewrite for_await_cons. cbn [snd]. rewrite stream_ops_app.
  rewrite IH.
  - rewrite app_nil_r. destruct d as [t| | | |]; try reflexivity.
    cbn. destruct (truthy t); [|reflexivity].
    apply nonempty_test in Hl. rewrite Hl. reflexivity.
  - rewrite on_delta_fullResponse. now apply append_nonempty_l.
Qed.

(** X3.  The code section and its spinner are installed in the UI stream at
    most once per call of the writer: when the first part that adds to
    the text buffer is a text fragment.  When an error part comes first
    the section is never installed, whatever text follows. *)
Lemma code_section_installed (ds : list Delta) :
  stream_ops UiStream (snd (for_await ds locals0)) =
  if leading ds
  then [OpUpdate (VNode CodeSection); OpAppend (VNode GeneratingSpinner)]
  else [].
Proof.
  assert (H : forall l, fullResponse l = EmptyString ->
            stream_ops UiStream (snd (for_await ds l)) =
            if leading ds
            then [OpUpdate (VNode CodeSection);
                  OpAppend (VNode GeneratingSpinner)]
            else []).
  { induction ds as [|d ds IH]; intros l Hl; [reflexivity|].
    rewrite for_await_cons. cbn [snd]. rewrite stream_ops_app.
    destruct d as [t| | | |]; cbn [leading].
    - destruct (truthy t) eqn:Ht.
      + rewrite ui_ops_buffer_nonempty.
        * cbn. rewrite Ht, Hl. cbn.
          unfold truthy in Ht. apply negb_true_iff in Ht.
          apply Nat.eqb_neq in Ht.
          destruct (String.length t) as [|m]; [contradiction|reflexivity].
        * rewrite on_delta_fullResponse. apply append_nonempty_r.
          now apply truthy_true.
      + cbn. rewrite Ht. cbn. now apply IH.
    - cbn. now apply IH.
    - cbn. now apply IH.
    - rewrite ui_ops_buffer_nonempty; [reflexivity|].
      rewrite on_delta_fullResponse.
      apply append_nonempty_r, errorNotice_nonempty.
    - cbn. now apply IH. }
  now apply H.
Qed.

Lemma growing_loop (ds : list Delta) :
  forall l prev,
    (exists s, fullResponse l = prev +++ s) ->
    growing_from prev (code_updates (snd (for_await ds l))).
Proof.
  induction ds as [|d ds IH]; intros l prev [s Hs]; [exact I|].
  rewrite for_await_code_updates_cons, on_delta_code_updates.
  assert (Hnext : exists s', fullResponse (fst (on_delta d l)) = prev +++ s').
  { exists (s +++ contribution d).
    now rewrite on_delta_fullResponse, Hs, append_assoc. }
  destruct d as [t| | | |]; cbn [app]; try (now apply IH).
  destruct (truthy t) eqn:Ht; cbn [app]; [|now apply IH].
  cbn [growing_from]. split.
  - exists (s +++ t). split.
    + apply append_nonempty_r. now apply truthy_true.
    + now rewrite Hs, append_assoc.
  - apply IH. exists EmptyString.
    rewrite on_delta_fullResponse. cbn [contribution].
    now rewrite append_empty_r.
Qed.

(** Within one call of the writer the values pushed to the code value
    stream only grow: each one is the previous one with a non-empty piece
    appended. *)
Lemma code_stream_grows_in_attempt (ds : list Delta) :
  growing_from EmptyString (code_updates (snd (for_await ds locals0))).
Proof. apply growing_loop. now exists EmptyString. Qed.

Lemma running_last (l : list string) :
  forall acc d,
    l <> [] -> last (running acc l) d = acc +++ concat_strings l.
Proof.
  induction l as [|s l IH]; intros acc d Hl; [contradiction|].
  destruct l as [|s' l].
  - cbn. now rewrite append_empty_r.
  - change (running acc (s :: s' :: l))
      with ((acc +++ s) :: running (acc +++ s) (s' :: l)).
    change (last ((acc +++ s) :: running (acc +++ s) (s' :: l)) d)
      with (last (running (acc +++ s) (s' :: l)) d).
    rewrite IH by discriminate.
    cbn [concat_strings]. now rewrite append_assoc.
Qed.

Lemma error_free_loop (ds : list Delta) :
  existsb is_error ds = false ->
  (forall l, code_updates (snd (for_await ds l)) =
             running (fullResponse l) (fragments ds)) /\
  text_of ds = concat_strings (fragments ds).
Proof.
  induction ds as [|d ds IH]; intros Herr; [split; reflexivity|].
  cbn [existsb] in Herr. apply orb_false_elim in Herr as [Hd Hds].
  destruct (IH Hds) as [IHu IHt]. split.
  - intros l.
    rewrite for_await_code_updates_cons, on_delta_code_updates, IHu,
      on_delta_fullResponse.
    unfold fragments. cbn [flat_map]. fold (fragments ds).
    destruct d as [t| | | |]; try discriminate;
      cbn [contribution app]; rewrite ?append_empty_r; try reflexivity.
    destruct (truthy t) eqn:Ht; [reflexivity|].
    apply truthy_false in Ht. subst t. now rewrite append_empty_r.
  - unfold fragments. cbn [text_of flat_map]. fold (fragments ds).
    rewrite IHt.
    destruct d as [t| | | |]; try discriminate; try reflexivity.
    cbn [contribution]. destruct (truthy t) eqn:Ht; [reflexivity|].
    apply truthy_false in Ht. now subst t.
Qed.

(** When the stream carries no error part and at least one non-empty
    text fragment, the last value pushed to the code value stream is the
    text the writer returns. *)
Lemma last_push_is_text (ds : list Delta) :
  existsb is_error ds = false ->
  fragments ds <> [] ->
  last_pushed ds = Some (fullResponse (fst (for_await ds locals0))).
Proof.
  intros Herr Hf. destruct (error_free_loop ds Herr) as [Hu Ht].
  unfold last_pushed. rewrite Hu, for_await_fullResponse, Ht.
  cbn [locals0 fullResponse String.append].
  pose proof (running_last (fragments ds) EmptyString EmptyString Hf) as Hl.
  cbn [String.append] in Hl.
  destruct (fragments ds) as [|s l] eqn:Hfr; [contradiction|].
  assert (Hne : running EmptyString (s :: l) <> []) by discriminate.
  destruct (exists_last Hne) as [pre [v Hpre]].
  rewrite Hpre, rev_app_distr. cbn.
  rewrite Hpre, last_last in Hl. now rewrite Hl.
Qed.

(* ================================================================= *)
(** ** Further properties of an exchange *)

(** The three shapes of a run. *)
Lemma run_cases (E : Env) (fuel : nat) (formData : option FormData)
      (skip : bool) (stored : list CoreMessage) :
  let w := prepared E formData skip stored in
  let run := submitUserInput E fuel formData skip (world0 stored) in
  (inquires E formData skip stored = true /\
   fst run = Finished /\
   trace (snd run) =
     trace w ++ decision_events skip (messages w) ++
     inquire_events E (messages w) (currentAi w)) \/
  (inquires E formData skip stored = false /\
   fst run = Finished /\
   exists n,
     n < fuel /\
     (forall j, j < n -> attempt_text E j = EmptyString) /\
     attempt_text E n <> EmptyString /\
     trace (snd run) =
       trace w ++ decision_events skip (messages w) ++ opening_events ++
       attempts_events E (S n) 0 (messages w) ++
       closing_events E (attempt_result E n)
         (attempts_messages E (S n) 0 (messages w))
         (ai_view (aiState w) (attempts_messages E (S n) 0 (messages w)))) \/
  (inquires E formData skip stored = false /\
   fst run = Pending /\
   (forall j, j < fuel -> attempt_text E j = EmptyString) /\
   trace (snd run) =
     trace w ++ decision_events skip (messages w) ++ opening_events ++
     attempts_events E fuel 0 (messages w)).
Proof.
  intros w run. unfold run.
  destruct (submitUserInput E fuel formData skip (world0 stored))
    as [[|] w'] eqn:Hrun; cbn [fst snd].
  - destruct (finished_cases E _ _ _ _ _ Hrun)
      as [[Hb Ht] | [Hb [n [Hn [He [Hf Ht]]]]]].
    + left. auto.
    + right. left. split; [assumption|]. split; [reflexivity|].
      exists n. auto.
  - right. right.
    destruct (pending_case E _ _ _ _ _ Hrun) as [Hb [He Ht]]. auto.
Qed.

Lemma ai_updates_app (a b : list Event) :
  ai_updates (a ++ b) = ai_updates a ++ ai_updates b.
Proof. apply flat_map_app. Qed.

#[export] Hint Rewrite ai_updates_app : trace_app.

Lemma quiet_ai_updates (es : list Event) :
  forallb quietb es = true -> ai_updates es = [].
Proof.
  induction es as [|e l IH]; [reflexivity|].
  simpl. intros H. apply andb_prop in H as [He Hl].
  unfold ai_updates in *. simpl. rewrite (IH Hl).
  destruct e as [s op| | | |]; try discriminate. reflexivity.
Qed.

Lemma attempts_events_ai_updates (E : Env) (n : nat) :
  forall k msgs, ai_updates (attempts_events E n k msgs) = [].
Proof.
  induction n as [|n IH]; intros k msgs; [reflexivity|].
  cbn [attempts_events]. unfold attempt_events.
  autorewrite with trace_app.
  now rewrite (quiet_ai_updates _ (attempt_out_quiet E k)), IH.
Qed.

(** The counts of agent calls in the three fixed tails of a run. *)
Lemma inquire_events_calls (E : Env) (msgs ai : list CoreMessage) (a : Agent) :
  calls_of a (inquire_events E msgs ai) =
  match a with Inquire => [msgs] | _ => [] end.
Proof.
  unfold inquire_events. autorewrite with trace_app.
  rewrite (quiet_calls _ (agent_ui_quiet _)). now destruct a.
Qed.

Lemma closing_events_calls (E : Env) (r : Locals) (msgs ai : list CoreMessage)
      (a : Agent) :
  calls_of a (closing_events E r msgs ai) =
  match a with
  | AiSuggestor => if hasError r then [] else [msgs]
  | _ => []
  end.
Proof.
  unfold closing_events, suggest_events.
  destruct (hasError r); cbn [negb]; autorewrite with trace_app;
    rewrite ?(quiet_calls _ (agent_ui_quiet _)); now destruct a.
Qed.

Lemma decision_events_calls (skip : bool) (msgs : list CoreMessage)
      (a : Agent) :
  calls_of a (decision_events skip msgs) =
  match a with
  | RequirementsManager => if skip then [] else [msgs]
  | _ => []
  end.
Proof. destruct skip, a; reflexivity. Qed.

Lemma start_calls (E : Env) (formData : option FormData) (skip : bool)
      (stored : list CoreMessage) (a : Agent) :
  calls_of a (trace (prepared E formData skip stored)) = [].
Proof.
  rewrite prepared_trace. unfold creation_events, user_events.
  now destruct (user_turns E formData skip).
Qed.

Lemma opening_calls (a : Agent) : calls_of a opening_events = [].
Proof. reflexivity. Qed.

Lemma attempts_events_writer_calls (E : Env) (a : Agent) (n k : nat)
      (msgs : list CoreMessage) :
  List.length (calls_of a (attempts_events E n k msgs)) =
  match a with Writer => n | _ => 0 end.
Proof.
  destruct a; try apply attempts_events_calls;
    now rewrite attempts_events_other_calls.
Qed.

(** X5.  In any run, however far it has got: the decision agent is called once
    unless the decision is skipped; the inquiry agent and the suggestion
    agent are called at most once each; and a run that calls the inquiry
    agent calls neither the writer nor the suggestion agent. *)
Lemma agent_call_counts (E : Env) (fuel : nat) (formData : option FormData)
      (skip : bool) (stored : list CoreMessage) :
  List.length (calls_of RequirementsManager
    (trace (snd (submitUserInput E fuel formData skip (world0 stored)))))
    = (if skip then 0 else 1) /\
  List.length (calls_of Inquire
    (trace (snd (submitUserInput E fuel formData skip (world0 stored)))))
    <= 1 /\
  List.length (calls_of AiSuggestor
    (trace (snd (submitUserInput E fuel formData skip (world0 stored)))))
    <= 1 /\
  List.length (calls_of Writer
    (trace (snd (submitUserInput E fuel formData skip (world0 stored)))))
    <= fuel /\
  (List.length (calls_of Inquire
     (trace (snd (submitUserInput E fuel formData skip (world0 stored)))))
     = 1 ->
   calls_of Writer
     (trace (snd (submitUserInput E fuel formData skip (world0 stored))))
     = [] /\
   calls_of AiSuggestor
     (trace (snd (submitUserInput E fuel formData skip (world0 stored))))
     = []).
Proof.
  destruct (run_cases E fuel formData skip stored)
    as [[_ [_ ->]] | [[_ [_ [n [Hn [_ [_ ->]]]]]] | [_ [_ [_ ->]]]]];
    autorewrite with trace_app;
    rewrite ?start_calls, ?decision_events_calls, ?inquire_events_calls,
      ?closing_events_calls, ?opening_calls, ?length_app,
      ?attempts_events_writer_calls;
    rewrite ?(attempts_events_other_calls E Inquire) by discriminate;
    cbn [app List.length];
    try (destruct (hasError (attempt_result E n)));
    destruct skip; cbn [List.length];
    repeat split; try lia; try discriminate.
Qed.

Lemma start_done_count (E : Env) (formData : option FormData) (skip : bool)
      (stored : list CoreMessage) (s : StreamId) :
  done_count s (trace (prepared E formData skip stored)) = 0.
Proof.
  rewrite prepared_trace. unfold creation_events, user_events.
  destruct (user_turns E formData skip), s; reflexivity.
Qed.

Lemma decision_done_count (skip : bool) (msgs : list CoreMessage)
      (s : StreamId) :
  done_count s (decision_events skip msgs) = 0.
Proof. destruct skip, s; reflexivity. Qed.

(** X6.  The code value stream is never closed: no run, finished or not,
    calls [done] on it. *)
Lemma code_stream_never_closed (E : Env) (fuel : nat)
      (formData : option FormData) (skip : bool) (stored : list CoreMessage) :
  done_count CodeStream
    (trace (snd (submitUserInput E fuel formData skip (world0 stored)))) = 0.
Proof.
  destruct (run_cases E fuel formData skip stored)
    as [[_ [_ ->]] | [[_ [_ [n [Hn [_ [_ ->]]]]]] | [_ [_ [_ ->]]]]];
    autorewrite with trace_app;
    rewrite start_done_count, decision_done_count,
      ?attempts_events_done_count;
    unfold inquire_events, closing_events, suggest_events, opening_events;
    try (destruct (hasError (attempt_result E n)); cbn [negb]);
    autorewrite with trace_app;
    rewrite ?(quiet_done_count _ _ (agent_ui_quiet _));
    reflexivity.
Qed.

Lemma ends_with_commit_inquire (E : Env) (msgs ai : list CoreMessage) :
  exists pre,
    inquire_events E msgs ai =
      pre ++ [EvAiDone (ai ++ [inquiryTurn (inquiryResult E msgs)])] /\
    committed pre = [].
Proof.
  unfold inquire_events.
  exists ([EvCall Inquire msgs] ++ agent_ui (inquiryUi E msgs) ++
          [EvReturn Inquire; EvStream UiStream (OpDone None);
           EvStream IsGenerating (OpDone None);
           EvStream IsCollapsed (OpDone (Some (VBool false)))]).
  split.
  - norm_app. reflexivity.
  - autorewrite with trace_app.
    now rewrite (quiet_committed _ (agent_ui_quiet _)).
Qed.

Lemma ends_with_commit_closing (E : Env) (r : Locals)
      (msgs ai : list CoreMessage) :
  exists pre,
    closing_events E r msgs ai =
      pre ++ [EvAiDone (ai ++ [mkMessage assistant (Text (fullResponse r))])] /\
    committed pre = [].
Proof.
  unfold closing_events.
  exists ((if negb (hasError r) then suggest_events E msgs else []) ++
          [EvStream IsGenerating (OpDone (Some (VBool false)));
           EvStream UiStream (OpDone None)]).
  split.
  - norm_app. reflexivity.
  - unfold suggest_events. destruct (hasError r); cbn [negb];
      autorewrite with trace_app;
      rewrite ?(quiet_committed _ (agent_ui_quiet _)); reflexivity.
Qed.

Lemma start_committed (E : Env) (formData : option FormData) (skip : bool)
      (stored : list CoreMessage) :
  committed (trace (prepared E formData skip stored)) = [].
Proof.
  rewrite prepared_trace. unfold creation_events, user_events.
  now destruct (user_turns E formData skip).
Qed.

Lemma decision_committed (skip : bool) (msgs : list CoreMessage) :
  committed (decision_events skip msgs) = [].
Proof. now destruct skip. Qed.

Lemma commit_tail (front tail pre : list Event) (x : Event) :
  tail = pre ++ [x] ->
  committed front = [] ->
  committed pre = [] ->
  exists pre', front ++ tail = pre' ++ [x] /\ committed pre' = [].
Proof.
  intros -> Hf Hp. exists (front ++ pre). split.
  - now rewrite app_assoc.
  - now rewrite committed_app, Hf, Hp.
Qed.

(** X7.  A finished run commits the conversation exactly once, as its very
    last action, and the committed state ends with an assistant turn whose
    content is a plain text. *)
Lemma commit_is_last (E : Env) (fuel : nat) (formData : option FormData)
      (skip : bool) (stored : list CoreMessage) :
  fst (submitUserInput E fuel formData skip (world0 stored)) = Finished ->
  exists pre st text,
    trace (snd (submitUserInput E fuel formData skip (world0 stored))) =
      pre ++ [EvAiDone (st ++ [mkMessage assistant (Text text)])] /\
    committed pre = [] /\
    committed
      (trace (snd (submitUserInput E fuel formData skip (world0 stored)))) =
      [st ++ [mkMessage assistant (Text text)]].
Proof.
  destruct (submitUserInput E fuel formData skip (world0 stored))
    as [c w'] eqn:Hrun.
  cbn [fst snd]. intros ->.
  assert (H : exists st text pre,
             trace w' =
               pre ++ [EvAiDone (st ++ [mkMessage assistant (Text text)])] /\
             committed pre = []).
  { destruct (finished_cases E _ _ _ _ _ Hrun)
      as [[_ ->] | [_ [n [_ [_ [_ ->]]]]]].
    - destruct (ends_with_commit_inquire E
                  (messages (prepared E formData skip stored))
                  (currentAi (prepared E formData skip stored)))
        as [pre [Heq Hpre]].
      exists (currentAi (prepared E formData skip stored)).
      eexists. rewrite app_assoc.
      apply (commit_tail _ _ pre); [exact Heq | | exact Hpre].
      now rewrite committed_app, start_committed, decision_committed.
    - match goal with
      | |- context [closing_events E ?r ?m ?a] =>
          destruct (ends_with_commit_closing E r m a) as [pre [Heq Hpre]];
          exists a, (fullResponse r)
      end.
      rewrite !app_assoc.
      apply (commit_tail _ _ pre); [exact Heq | | exact Hpre].
      rewrite !committed_app.
      now rewrite start_committed, decision_committed,
        attempts_events_committed. }
  destruct H as [st [text [pre [Ht Hpre]]]].
  exists pre, st, text. split; [exact Ht|]. split; [exact Hpre|].
  rewrite Ht, committed_app, Hpre. reflexivity.
Qed.

Lemma commit_is_last_witness :
  exists pre st text,
    trace (snd (submitUserInput env_retry 3 (Some sample_form) false
                                (world0 []))) =
      pre ++ [EvAiDone (st ++ [mkMessage assistant (Text text)])] /\
    committed pre = [] /\
    committed
      (trace (snd (submitUserInput env_retry 3 (Some sample_form) false
                                   (world0 [])))) =
      [st ++ [mkMessage assistant (Text text)]].
Proof.
  apply (commit_is_last env_retry 3 (Some sample_form) false []).
  vm_compute. reflexivity.
Defined.

Lemma attempts_messages_map (E : Env) (n : nat) :
  forall k msgs,
    attempts_messages E n k msgs = msgs ++ pushed_turns E k n.
Proof.
  unfold pushed_turns.
  induction n as [|n IH]; intros k msgs.
  - cbn. now rewrite app_nil_r.
  - cbn [attempts_messages seq map].
    rewrite writer_pushes_attempt, IH, <- app_assoc. reflexivity.
Qed.

Lemma attempts_events_writer_msgs (E : Env) (n : nat) :
  forall k msgs,
    calls_of Writer (attempts_events E n k msgs) =
    map (fun i => msgs ++ pushed_turns E k i) (seq 0 n).
Proof.
  unfold pushed_turns.
  induction n as [|n IH]; intros k msgs; [reflexivity|].
  cbn [attempts_events]. unfold attempt_events.
  autorewrite with trace_app.
  rewrite (quiet_calls _ (attempt_out_quiet E k)), IH, writer_pushes_attempt.
  cbn [calls_of flat_map Agent_eqb app seq map].
  rewrite app_nil_r. f_equal.
  rewrite <- seq_shift, map_map. apply map_ext. intros i.
  cbn [seq map]. now rewrite <- app_assoc.
Qed.

(** X8.  Every attempt, the empty ones included, pushes its assistant turn
    onto [messages].  With [N] empty attempts before the successful one,
    attempt number [i] is sent the messages the exchange started from
    followed by the turns of the [i] attempts before it, the conversation
    ends with [N + 1] added turns, and each of the first [N] carries an
    empty text. *)
Lemma attempts_accumulate (E : Env) (fuel : nat) (formData : option FormData)
      (skip : bool) (stored : list CoreMessage) (N : nat) :
  inquires E formData skip stored = false ->
  (forall j, j < N -> attempt_text E j = EmptyString) ->
  attempt_text E N <> EmptyString ->
  N < fuel ->
  messages (snd (submitUserInput E fuel formData skip (world0 stored))) =
    messages (prepared E formData skip stored) ++ pushed_turns E 0 (S N) /\
  calls_of Writer
    (trace (snd (submitUserInput E fuel formData skip (world0 stored)))) =
    map (fun i => messages (prepared E formData skip stored) ++
                  pushed_turns E 0 i) (seq 0 (S N)) /\
  (forall j, j < N ->
     nth_error (pushed_turns E 0 (S N)) j =
     Some (mkMessage assistant
             (Parts (TextPart EmptyString ::
                     map CallPart (calls_in (fullStream E j)))))).
Proof.
  intros Hbranch Hempty Hfull Hfuel. unfold inquires in Hbranch.
  pose proof (prepared_streamCalls E formData skip stored) as Hk.
  rewrite submit_eq.
  rewrite (processEvents_generate E N); rewrite ?Hk; try assumption.
  cbn [snd messages trace]. split; [|split].
  - apply attempts_messages_map.
  - autorewrite with trace_app.
    rewrite start_calls, decision_events_calls, opening_calls,
      closing_events_calls, attempts_events_writer_msgs.
    cbn [app]. now rewrite app_nil_r.
  - intros j Hj. unfold pushed_turns.
    rewrite nth_error_map, nth_error_seq.
    destruct (Nat.ltb_spec j (S N)) as [_|Hge]; [|lia].
    cbn [option_map Nat.add]. f_equal. unfold assistantTurn.
    specialize (Hempty j Hj). unfold attempt_text in Hempty.
    rewrite Hempty. unfold attempt_result.
    now rewrite for_await_toolCalls.
Qed.

Lemma attempts_accumulate_witness :
  messages (snd (submitUserInput env_retry 3 (Some sample_form) false
                                 (world0 []))) =
    messages (prepared env_retry (Some sample_form) false []) ++
    pushed_turns env_retry 0 3 /\
  calls_of Writer
    (trace (snd (submitUserInput env_retry 3 (Some sample_form) false
                                 (world0 [])))) =
    map (fun i => messages (prepared env_retry (Some sample_form) false []) ++
                  pushed_turns env_retry 0 i) (seq 0 3) /\
  (forall j, j < 2 ->
     nth_error (pushed_turns env_retry 0 3) j =
     Some (mkMessage assistant
             (Parts (TextPart EmptyString ::
                     map CallPart (calls_in (fullStream env_retry j)))))).
Proof.
  apply (attempts_accumulate env_retry 3 (Some sample_form) false [] 2).
  - reflexivity.
  - intros j Hj. destruct j as [|[|j]]; [reflexivity | reflexivity | lia].
  - discriminate.
  - lia.
Defined.

(** X9.  When a user turn is added, [messages] (the array of the AI state)
    receives it by [push], and [aiState.update([...aiState.get(),
    message])] then copies that array and adds the turn again: the AI
    state holds the window followed by the user turn twice, while
    [messages] holds it once; [aiState.update] is called exactly once. *)
Lemma user_turn_duplicated (E : Env) (formData : option FormData)
      (skip : bool) (stored : list CoreMessage) (u : CoreMessage) :
  user_turns E formData skip = [u] ->
  messages (prepared E formData skip stored) = splice_front stored ++ [u] /\
  currentAi (prepared E formData skip stored) =
    splice_front stored ++ [u; u] /\
  ai_updates (trace (prepared E formData skip stored)) =
    [splice_front stored ++ [u; u]].
Proof.
  intros Hu. rewrite prepare_eq, Hu. unfold currentAi.
  cbn [messages aiState trace ai_after_user user_events].
  rewrite <- app_assoc. repeat split.
Qed.

Lemma user_turn_duplicated_witness :
  messages (prepared env_retry None true []) =
    splice_front [] ++ [mkMessage user (Text skipSentinel)] /\
  currentAi (prepared env_retry None true []) =
    splice_front [] ++ [mkMessage user (Text skipSentinel);
                        mkMessage user (Text skipSentinel)] /\
  ai_updates (trace (prepared env_retry None true [])) =
    [splice_front [] ++ [mkMessage user (Text skipSentinel);
                         mkMessage user (Text skipSentinel)]].
Proof.
  apply (user_turn_duplicated env_retry None true []
           (mkMessage user (Text skipSentinel))).
  reflexivity.
Defined.

Lemma generation_commit (E : Env) (fuel : nat)
      (formData : option FormData) (skip : bool)
      (stored : list CoreMessage) (N : nat) :
  inquires E formData skip stored = false ->
  (forall j, j < N -> attempt_text E j = EmptyString) ->
  attempt_text E N <> EmptyString ->
  N < fuel ->
  committed
    (trace (snd (submitUserInput E fuel formData skip (world0 stored)))) =
  [ai_view (aiState (prepared E formData skip stored))
     (messages (prepared E formData skip stored) ++ pushed_turns E 0 (S N)) ++
   [mkMessage assistant (Text (attempt_text E N))]].
Proof.
  intros Hbranch Hempty Hfull Hfuel. unfold inquires in Hbranch.
  pose proof (prepared_streamCalls E formData skip stored) as Hk.
  rewrite submit_eq.
  rewrite (processEvents_generate E N); rewrite ?Hk; try assumption.
  cbn [snd trace Nat.add]. autorewrite with trace_app.
  rewrite start_committed, decision_committed, attempts_events_committed.
  destruct (ends_with_commit_closing E (attempt_result E N)
              (attempts_messages E (S N) 0
                 (messages (prepared E formData skip stored)))
              (ai_view (aiState (prepared E formData skip stored))
                 (attempts_messages E (S N) 0
                    (messages (prepared E formData skip stored)))))
    as [pre [-> Hpre]].
  rewrite committed_app, Hpre. cbn [app committed flat_map].
  now rewrite attempts_messages_map.
Qed.

(** X10.  What a finished generation commits.  When a user turn [u] was added,
    the AI state is an array of its own and the turns pushed by the
    writer are not part of it: the committed state is the window, [u]
    twice, and the final code as a plain-text assistant turn.  When no
    user turn was added, [messages] still is the array of the AI state:
    the committed state is the window, the structured assistant turn of
    every attempt, and then the final code again as a plain-text turn. *)
Lemma committed_generation (E : Env) (fuel : nat)
      (formData : option FormData) (skip : bool)
      (stored : list CoreMessage) (N : nat) :
  inquires E formData skip stored = false ->
  (forall j, j < N -> attempt_text E j = EmptyString) ->
  attempt_text E N <> EmptyString ->
  N < fuel ->
  committed
    (trace (snd (submitUserInput E fuel formData skip (world0 stored)))) =
  [match user_turns E formData skip with
   | [] => splice_front stored ++ pushed_turns E 0 (S N)
   | turns => (splice_front stored ++ turns) ++ turns
   end ++ [mkMessage assistant (Text (attempt_text E N))]].
Proof.
  intros Hbranch Hempty Hfull Hfuel.
  rewrite (generation_commit E fuel formData skip stored N) by assumption.
  rewrite prepare_eq. cbn [messages aiState].
  unfold ai_after_user, ai_view.
  destruct (user_turns E formData skip) as [|u turns].
  - now rewrite app_nil_r.
  - reflexivity.
Qed.

Lemma committed_generation_witness :
  committed
    (trace (snd (submitUserInput env_retry 3 None false (world0 [])))) =
  [match user_turns env_retry None false with
   | [] => splice_front [] ++ pushed_turns env_retry 0 3
   | turns => (splice_front [] ++ turns) ++ turns
   end ++ [mkMessage assistant (Text (attempt_text env_retry 2))]].
Proof.
  apply (committed_generation env_retry 3 None false [] 2).
  - reflexivity.
  - intros j Hj. destruct j as [|[|j]]; [reflexivity | reflexivity | lia].
  - discriminate.
  - lia.
Defined.

Lemma start_ai_updates (E : Env) (formData : option FormData) (skip : bool)
      (stored : list CoreMessage) :
  ai_updates (trace (prepared E formData skip stored)) =
  match user_turns E formData skip with
  | [] => []
  | turns => [(splice_front stored ++ turns) ++ turns]
  end.
Proof.
  rewrite prepared_trace. unfold creation_events, user_events.
  now destruct (user_turns E formData skip).
Qed.

(** [aiState.update] is called only for the user turn: no part of
    [processEvents] calls it, in any run. *)
Lemma ai_updates_only_user_turn (E : Env) (fuel : nat)
      (formData : option FormData) (skip : bool) (stored : list CoreMessage) :
  ai_updates
    (trace (snd (submitUserInput E fuel formData skip (world0 stored)))) =
  ai_updates (trace (prepared E formData skip stored)).
Proof.
  destruct (run_cases E fuel formData skip stored)
    as [[_ [_ ->]] | [[_ [_ [n [Hn [_ [_ ->]]]]]] | [_ [_ [_ ->]]]]];
    autorewrite with trace_app;
    rewrite ?attempts_events_ai_updates;
    unfold decision_events, inquire_events, closing_events, suggest_events,
      opening_events;
    try (destruct (hasError (attempt_result E n)); cbn [negb]);
    destruct skip; cbn [negb];
    autorewrite with trace_app;
    rewrite ?(quiet_ai_updates _ (agent_ui_quiet _));
    cbn; now rewrite ?app_nil_r.
Qed.

(** X11.  With neither a form nor the skip flag no user turn is added: the AI
    state is never updated, and the decision agent still runs, on the
    window alone. *)
Lemma no_input_no_user_turn (E : Env) (fuel : nat)
      (stored : list CoreMessage) :
  messages (prepared E None false stored) = splice_front stored /\
  ai_updates
    (trace (snd (submitUserInput E fuel None false (world0 stored)))) = [] /\
  calls_of RequirementsManager
    (trace (snd (submitUserInput E fuel None false (world0 stored)))) =
    [splice_front stored].
Proof.
  split; [|split].
  - rewrite prepared_messages. cbn. now rewrite app_nil_r.
  - rewrite ai_updates_only_user_turn, start_ai_updates. reflexivity.
  - assert (Hm : messages (prepared E None false stored) =
                 splice_front stored).
    { rewrite prepared_messages. cbn. now rewrite app_nil_r. }
    destruct (run_cases E fuel None false stored)
      as [[_ [_ ->]] | [[_ [_ [n [Hn [_ [_ ->]]]]]] | [_ [_ [_ ->]]]]];
      autorewrite with trace_app;
      rewrite start_calls, decision_events_calls,
        ?inquire_events_calls, ?closing_events_calls, ?opening_calls;
      rewrite ?(attempts_events_other_calls E RequirementsManager)
        by discriminate;
      rewrite Hm; reflexivity.
Qed.

(** X12.  The decision fails open.  When the decision agent yields nothing, or
    a decision whose [next] is anything but ["inquire"], the exchange
    takes the generation branch: the agent has been called once, the
    inquiry agent is never called, and [isCollapsed] is closed with
    [true]. *)
Lemma decision_fails_open (E : Env) (fuel : nat)
      (formData : option FormData) (stored : list CoreMessage) :
  (decisionResult E (messages (prepared E formData false stored)) = None \/
   exists a,
     decisionResult E (messages (prepared E formData false stored)) = Some a /\
     next a <> "inquire"%string) ->
  inquires E formData false stored = false /\
  calls_of RequirementsManager
    (trace (snd (submitUserInput E fuel formData false (world0 stored)))) =
    [messages (prepared E formData false stored)] /\
  calls_of Inquire
    (trace (snd (submitUserInput E fuel formData false (world0 stored)))) =
    [] /\
  stream_ops IsCollapsed
    (trace (snd (submitUserInput E fuel formData false (world0 stored)))) =
    [OpCreate (Some (VBool false)); OpDone (Some (VBool true))].
Proof.
  intros Hd.
  assert (Hb : inquires E formData false stored = false).
  { unfold inquires, chosen. cbn [negb].
    destruct Hd as [-> | [a [-> Ha]]]; [reflexivity|].
    now apply String.eqb_neq. }
  split; [exact Hb|].
  destruct (run_cases E fuel formData false stored)
    as [[Hi _] | [[_ [_ [n [Hn [_ [_ ->]]]]]] | [_ [_ [_ ->]]]]];
    [rewrite Hb in Hi; discriminate | |];
    (split; [|split]);
    autorewrite with trace_app;
    rewrite ?start_calls, ?decision_events_calls, ?closing_events_calls,
      ?opening_calls;
    rewrite ?(attempts_events_other_calls E RequirementsManager),
      ?(attempts_events_other_calls E Inquire) by discriminate;
    rewrite ?(attempts_events_flags E IsCollapsed) by (now right);
    try reflexivity;
    rewrite prepared_trace;
    unfold creation_events, user_events, closing_events, suggest_events;
    try (destruct (hasError (attempt_result E n)); cbn [negb]);
    destruct (user_turns E formData false);
    autorewrite with trace_app;
    rewrite ?(agent_ui_only_ui IsCollapsed) by discriminate;
    reflexivity.
Qed.

Lemma decision_fails_open_witness :
  inquires env_retry (Some sample_form) false [] = false /\
  calls_of RequirementsManager
    (trace (snd (submitUserInput env_retry 3 (Some sample_form) false
                                 (world0 [])))) =
    [messages (prepared env_retry (Some sample_form) false [])] /\
  calls_of Inquire
    (trace (snd (submitUserInput env_retry 3 (Some sample_form) false
                                 (world0 [])))) =
    [] /\
  stream_ops IsCollapsed
    (trace (snd (submitUserInput env_retry 3 (Some sample_form) false
                                 (world0 [])))) =
    [OpCreate (Some (VBool false)); OpDone (Some (VBool true))].
Proof.
  apply (decision_fails_open env_retry 3 (Some sample_form) []).
  left. reflexivity.
Defined.

(** X13.  A model that never yields text or an error part keeps the exchange
    in the loop for ever: whatever the number of iterations, the run is
    still pending after as many calls of the writer, [messages] has grown
    by one turn per call, nothing is committed, and neither the UI stream
    nor [isGenerating] is closed, while [isCollapsed] already is. *)
Lemma silent_model_never_finishes (E : Env) (fuel : nat)
      (formData : option FormData) (skip : bool) (stored : list CoreMessage) :
  inquires E formData skip stored = false ->
  (forall k, fragments (fullStream E k) = [] /\
             existsb is_error (fullStream E k) = false) ->
  fst (submitUserInput E fuel formData skip (world0 stored)) = Pending /\
  List.length (calls_of Writer
    (trace (snd (submitUserInput E fuel formData skip (world0 stored)))))
    = fuel /\
  List.length
    (messages (snd (submitUserInput E fuel formData skip (world0 stored)))) =
    List.length (messages (prepared E formData skip stored)) + fuel /\
  committed
    (trace (snd (submitUserInput E fuel formData skip (world0 stored)))) =
    [] /\
  done_count UiStream
    (trace (snd (submitUserInput E fuel formData skip (world0 stored)))) = 0 /\
  done_count IsGenerating
    (trace (snd (submitUserInput E fuel formData skip (world0 stored)))) = 0 /\
  done_count IsCollapsed
    (trace (snd (submitUserInput E fuel formData skip (world0 stored)))) = 1.
Proof.
  intros Hbranch Hsilent. unfold inquires in Hbranch.
  pose proof (prepared_streamCalls E formData skip stored) as Hk.
  assert (Hempty : forall j, j < fuel -> attempt_text E (0 + j) = EmptyString).
  { intros j _. apply attempt_text_empty_iff, Hsilent. }
  rewrite submit_eq.
  rewrite processEvents_pending; rewrite ?Hk; try assumption.
  cbn [fst snd trace messages].
  split; [reflexivity|]. split; [|split; [|split; [|split; [|split]]]].
  - autorewrite with trace_app.
    rewrite start_calls, decision_events_calls, opening_calls,
      !length_app, attempts_events_calls. reflexivity.
  - rewrite attempts_messages_map, length_app. unfold pushed_turns.
    now rewrite length_map, length_seq.
  - autorewrite with trace_app.
    now rewrite start_committed, decision_committed,
      attempts_events_committed.
  - autorewrite with trace_app.
    now rewrite start_done_count, decision_done_count,
      attempts_events_done_count.
  - autorewrite with trace_app.
    now rewrite start_done_count, decision_done_count,
      attempts_events_done_count.
  - autorewrite with trace_app.
    now rewrite start_done_count, decision_done_count,
      attempts_events_done_count.
Qed.

Lemma silent_model_never_finishes_witness :
  fst (submitUserInput env_silent 5 (Some sample_form) false (world0 [])) =
    Pending /\
  List.length (calls_of Writer
    (trace (snd (submitUserInput env_silent 5 (Some sample_form) false
                                 (world0 []))))) = 5 /\
  List.length
    (messages (snd (submitUserInput env_silent 5 (Some sample_form) false
                                    (world0 [])))) =
    List.length (messages (prepared env_silent (Some sample_form) false []))
    + 5 /\
  committed
    (trace (snd (submitUserInput env_silent 5 (Some sample_form) false
                                 (world0 [])))) = [] /\
  done_count UiStream
    (trace (snd (submitUserInput env_silent 5 (Some sample_form) false
                                 (world0 [])))) = 0 /\
  done_count IsGenerating
    (trace (snd (submitUserInput env_silent 5 (Some sample_form) false
                                 (world0 [])))) = 0 /\
  done_count IsCollapsed
    (trace (snd (submitUserInput env_silent 5 (Some sample_form) false
                                 (world0 [])))) = 1.
Proof.
  apply (silent_model_never_finishes env_silent 5 (Some sample_form) false []).
  - reflexivity.
  - intros k. split; reflexivity.
Defined.

(** X14.  The window: a conversation of at most [maxMessages] turns is kept
    whole, and cutting twice is cutting once. *)
Lemma splice_front_short (stored : list CoreMessage) :
  (List.length stored <= maxMessages -> splice_front stored = stored) /\
  splice_front (splice_front stored) = splice_front stored /\
  List.length (splice_front stored) <= maxMessages.
Proof.
  assert (Hshort : forall l : list CoreMessage,
             List.length l <= maxMessages -> splice_front l = l).
  { intros l Hl. unfold splice_front.
    replace (Nat.max (List.length l - maxMessages) 0) with 0 by lia.
    reflexivity. }
  assert (Hlen : List.length (splice_front stored) <= maxMessages).
  { unfold splice_front. rewrite length_skipn. unfold maxMessages. lia. }
  split; [apply Hshort|]. split; [now apply Hshort | exact Hlen].
Qed.

Lemma start_code_updates (E : Env) (formData : option FormData) (skip : bool)
      (stored : list CoreMessage) :
  code_updates (trace (prepared E formData skip stored)) = [].
Proof.
  rewrite prepared_trace. unfold creation_events, user_events.
  now destruct (user_turns E formData skip).
Qed.

Lemma decision_code_updates (skip : bool) (msgs : list CoreMessage) :
  code_updates (decision_events skip msgs) = [].
Proof. now destruct skip. Qed.

Lemma closing_code_updates (E : Env) (r : Locals) (msgs ai : list CoreMessage) :
  code_updates (closing_events E r msgs ai) = [].
Proof.
  unfold closing_events, suggest_events.
  destruct (hasError r); cbn [negb]; autorewrite with trace_app;
    rewrite ?code_updates_agent_ui; reflexivity.
Qed.

Lemma inquire_code_updates (E : Env) (msgs ai : list CoreMessage) :
  code_updates (inquire_events E msgs ai) = [].
Proof.
  unfold inquire_events. autorewrite with trace_app.
  now rewrite code_updates_agent_ui.
Qed.

Lemma all_empty_no_updates (E : Env) (n : nat) (msgs : list CoreMessage) :
  (forall j, j < n -> attempt_text E j = EmptyString) ->
  code_updates (attempts_events E n 0 msgs) = [].
Proof.
  intros Hempty. rewrite attempts_events_code_updates.
  induction n as [|n IH]; [reflexivity|].
  rewrite seq_S, flat_map_app. cbn. rewrite app_nil_r.
  rewrite IH by (intros j Hj; apply Hempty; lia).
  apply empty_attempt_silent, Hempty. lia.
Qed.

(** In any run the values pushed to the code value stream are those of
    one call of the writer, the accepted one. *)
Lemma code_updates_run (E : Env) (fuel : nat) (formData : option FormData)
      (skip : bool) (stored : list CoreMessage) :
  code_updates
    (trace (snd (submitUserInput E fuel formData skip (world0 stored)))) = [] \/
  exists n,
    (forall j, j < n -> attempt_text E j = EmptyString) /\
    attempt_text E n <> EmptyString /\
    code_updates
      (trace (snd (submitUserInput E fuel formData skip (world0 stored)))) =
    code_updates (attempt_out E n).
Proof.
  destruct (run_cases E fuel formData skip stored)
    as [[_ [_ ->]] | [[_ [_ [n [Hn [He [Hf ->]]]]]] | [_ [_ [He ->]]]]];
    autorewrite with trace_app;
    rewrite start_code_updates, decision_code_updates.
  - left. now rewrite inquire_code_updates.
  - right. exists n. split; [exact He|]. split; [exact Hf|].
    rewrite closing_code_updates, (code_updates_last_attempt E n) by exact He.
    cbn. now rewrite app_nil_r.
  - left. now rewrite (all_empty_no_updates E fuel) by exact He.
Qed.

(** X4.  Over a whole run, retries included, the code value stream only
    grows: every value pushed is the one before it with a non-empty piece
    appended, so a reader never sees the code shrink or restart. *)
Lemma code_stream_grows (E : Env) (fuel : nat) (formData : option FormData)
      (skip : bool) (stored : list CoreMessage) :
  growing_from EmptyString
    (code_updates
       (trace (snd (submitUserInput E fuel formData skip (world0 stored))))).
Proof.
  destruct (code_updates_run E fuel formData skip stored)
    as [-> | [n [_ [_ ->]]]]; [exact I|].
  apply code_stream_grows_in_attempt.
Qed.

Lemma last_pushed_last (ds : list Delta) (v d : string) :
  last_pushed ds = Some v ->
  last (code_updates (snd (for_await ds locals0))) d = v.
Proof.
  unfold last_pushed.
  destruct (rev (code_updates (snd (for_await ds locals0))))
    as [|x xs] eqn:Hr; [discriminate|].
  intros H. inversion H; subst x.
  apply (f_equal (@rev _)) in Hr. rewrite rev_involutive in Hr.
  rewrite Hr. cbn [rev]. apply last_last.
Qed.

(** X15.  The two channels agree at the end: when the accepted attempt's stream
    carries no error part, the last value pushed to the code value stream
    is the code committed as the final assistant turn. *)
Lemma code_stream_agrees_with_commit (E : Env) (fuel : nat)
      (formData : option FormData) (skip : bool)
      (stored : list CoreMessage) (N : nat) :
  inquires E formData skip stored = false ->
  (forall j, j < N -> attempt_text E j = EmptyString) ->
  attempt_text E N <> EmptyString ->
  existsb is_error (fullStream E N) = false ->
  N < fuel ->
  exists st,
    committed
      (trace (snd (submitUserInput E fuel formData skip (world0 stored)))) =
    [st ++
     [mkMessage assistant
        (Text (last (code_updates
                       (trace (snd (submitUserInput E fuel formData skip
                                                    (world0 stored)))))
                    EmptyString))]].
Proof.
  intros Hbranch Hempty Hfull Herr Hfuel.
  assert (Hfr : fragments (fullStream E N) <> []).
  { intros Hnil. apply Hfull. now apply attempt_text_empty_iff. }
  assert (Hu : code_updates
                 (trace (snd (submitUserInput E fuel formData skip
                                              (world0 stored)))) =
               code_updates (attempt_out E N)).
  { pose proof (prepared_streamCalls E formData skip stored) as Hk.
    unfold inquires in Hbranch. rewrite submit_eq.
    rewrite (processEvents_generate E N); rewrite ?Hk; try assumption.
    cbn [snd trace]. autorewrite with trace_app.
    rewrite start_code_updates, decision_code_updates, closing_code_updates,
      (code_updates_last_attempt E N) by exact Hempty.
    cbn. now rewrite app_nil_r. }
  rewrite Hu. unfold attempt_out.
  rewrite (last_pushed_last _ _ _ (last_push_is_text _ Herr Hfr)).
  rewrite (generation_commit E fuel formData skip stored N)
    by assumption.
  eexists. reflexivity.
Qed.

Lemma code_stream_agrees_with_commit_witness :
  exists st,
    committed
      (trace (snd (submitUserInput env_retry 3 (Some sample_form) false
                                   (world0 [])))) =
    [st ++
     [mkMessage assistant
        (Text (last (code_updates
                       (trace (snd (submitUserInput env_retry 3
                                      (Some sample_form) false (world0 [])))))
                    EmptyString))]].
Proof.
  apply (code_stream_agrees_with_commit env_retry 3 (Some sample_form) false
           [] 2).
  - reflexivity.
  - intros j Hj. destruct j as [|[|j]]; [reflexivity | reflexivity | lia].
  - discriminate.
  - reflexivity.
  - lia.
Defined.

(* ================================================================= *)
(** ** The discipline of the three streams, in every run *)









(* ================================================================= *)
(** ** Error-free streams *)

(** A stream made of non-empty text fragments only. *)
Lemma fragments_of_text_stream (frags : list string) :
  Forall (fun t => t <> EmptyString) frags ->
  fragments (map TextDelta frags) = frags /\
  existsb is_error (map TextDelta frags) = false.
Proof.
  intros Hall. split; [|apply no_error_in_text].
  induction Hall as [|t frags Ht _ IH]; [reflexivity|].
  unfold fragments in *. cbn [map flat_map].
  apply truthy_true in Ht. rewrite Ht, IH. reflexivity.
Qed.

(** C6.  In a generation-branch exchange whose first model stream carries
    no error part and at least one non-empty text fragment (other parts,
    such as the closing finish part, may be interleaved), exactly one
    call of the writer occurs, each non-empty fragment pushes the
    concatenation so far to the code value stream, and the final code
    (the committed assistant content) is the concatenation of the
    fragments in the order of emission. *)
Theorem fragments_concatenated (E : Env) (fuel : nat)
        (formData : option FormData) (skip : bool)
        (stored : list CoreMessage) :
  inquires E formData skip stored = false ->
  existsb is_error (fullStream E 0) = false ->
  fragments (fullStream E 0) <> [] ->
  0 < fuel ->
  exists w' st,
    submitUserInput E fuel formData skip (world0 stored) = (Finished, w') /\
    committed (trace w') =
      [st ++ [mkMessage assistant
                (Text (concat_strings (fragments (fullStream E 0))))]] /\
    List.length (calls_of Writer (trace w')) = 1 /\
    code_updates (trace w') =
      running EmptyString (fragments (fullStream E 0)) /\
    List.length (calls_of AiSuggestor (trace w')) = 1.
Proof.
  intros Hbranch Hnoerr Hfrags Hfuel. unfold inquires in Hbranch.
  pose proof (prepared_streamCalls E formData skip stored) as Hk.
  destruct (error_free_loop (fullStream E 0) Hnoerr) as [Hupd Htxt].
  assert (Htext : attempt_text E 0 =
                  concat_strings (fragments (fullStream E 0))).
  { unfold attempt_text, attempt_result.
    now rewrite for_await_fullResponse, Htxt. }
  assert (Herr : hasError (attempt_result E 0) = false).
  { unfold attempt_result. now rewrite for_await_hasError, Hnoerr. }
  assert (Hfull : attempt_text E 0 <> EmptyString).
  { intros Hz. apply attempt_text_empty_iff in Hz as [Hz _].
    contradiction. }
  eexists.
  exists (ai_view (aiState (prepared E formData skip stored))
                  (attempts_messages E 1 0
                     (messages (prepared E formData skip stored)))).
  split; [|split; [|split; [|split]]].
  - rewrite submit_eq.
    apply (processEvents_generate E 0); rewrite ?Hk;
      [assumption | assumption | intros j Hj; lia | assumption].
  - at_start E formData skip stored. cbn [Nat.add].
    unfold closing_events. rewrite Herr.
    change (fullResponse (attempt_result E 0)) with (attempt_text E 0).
    rewrite Htext.
    split_pieces; read_trace; reflexivity.
  - at_start E formData skip stored. cbn [Nat.add].
    unfold closing_events. rewrite Herr.
    split_pieces; read_trace; reflexivity.
  - at_start E formData skip stored. cbn [Nat.add].
    unfold closing_events, suggest_events. rewrite Herr. cbn [negb].
    autorewrite with trace_app.
    rewrite (code_updates_last_attempt E 0) by (intros j Hj; lia).
    rewrite code_updates_agent_ui.
    unfold attempt_out. rewrite Hupd.
    unfold creation_events, user_events, decision_events, opening_events.
    destruct (user_turns E formData skip), skip; cbn;
      now rewrite app_nil_r.
  - at_start E formData skip stored. cbn [Nat.add].
    unfold closing_events, suggest_events. rewrite Herr. cbn [negb].
    autorewrite with trace_app.
    rewrite (attempts_events_other_calls E AiSuggestor) by discriminate.
    rewrite (quiet_calls _ (agent_ui_quiet _)).
    unfold creation_events, user_events, decision_events, opening_events.
    destruct (user_turns E formData skip), skip; reflexivity.
Qed.

Lemma fragments_concatenated_witness :
  exists w' st,
    submitUserInput
      (env_stream [TextDelta "pragma "; TextDelta "solidity ^0.8.0;";
                   OtherDelta]) 1
      (Some sample_form) false (world0 []) = (Finished, w') /\
    committed (trace w') =
      [st ++ [mkMessage assistant
                (Text (concat_strings
                         (fragments
                            (fullStream
                               (env_stream [TextDelta "pragma ";
                                            TextDelta "solidity ^0.8.0;";
                                            OtherDelta]) 0))))]] /\
    List.length (calls_of Writer (trace w')) = 1 /\
    code_updates (trace w') =
      running EmptyString
        (fragments
           (fullStream (env_stream [TextDelta "pragma ";
                                    TextDelta "solidity ^0.8.0;";
                                    OtherDelta]) 0)) /\
    List.length (calls_of AiSuggestor (trace w')) = 1.
Proof.
  apply (fragments_concatenated
           (env_stream [TextDelta "pragma "; TextDelta "solidity ^0.8.0;";
                        OtherDelta])
           1 (Some sample_form) false []).
  - reflexivity.
  - reflexivity.
  - discriminate.
  - lia.
Defined.

(* ================================================================= *)
(** ** When the loop goes round again *)

Lemma generation_writer_calls (E : Env) (fuel : nat)
      (formData : option FormData) (skip : bool) (stored : list CoreMessage) :
  inquires E formData skip stored = false ->
  (exists n,
      n < fuel /\
      (forall j, j < n -> attempt_text E j = EmptyString) /\
      attempt_text E n <> EmptyString /\
      List.length
        (calls_of Writer
           (trace (snd (submitUserInput E fuel formData skip
                                        (world0 stored))))) = S n) \/
  ((forall j, j < fuel -> attempt_text E j = EmptyString) /\
   List.length
     (calls_of Writer
        (trace (snd (submitUserInput E fuel formData skip
                                     (world0 stored))))) = fuel).
Proof.
  intros Hb.
  destruct (run_cases E fuel formData skip stored)
    as [[Hi _] | [[_ [_ [n [Hn [He [Hf ->]]]]]] | [_ [_ [He ->]]]]].
  - rewrite Hb in Hi. discriminate.
  - left. exists n. repeat (split; [assumption|]).
    autorewrite with trace_app.
    rewrite start_calls, decision_events_calls, opening_calls,
      closing_events_calls, !length_app, attempts_events_calls.
    cbn. lia.
  - right. split; [assumption|].
    autorewrite with trace_app.
    rewrite start_calls, decision_events_calls, opening_calls,
      !length_app, attempts_events_calls.
    cbn. lia.
Qed.

(** X2.  The writer returns an empty text exactly when its stream carries
    neither a non-empty text fragment nor an error part, and these are
    exactly the streams after which the loop of the orchestrator goes
    round again: in a generation-branch run given more than [k]
    iterations, the writer is called more than [k] times exactly when the
    streams of its first [k] calls were all of that kind. *)
Theorem retry_iff_silent (E : Env) (fuel : nat)
        (formData : option FormData) (skip : bool)
        (stored : list CoreMessage) (k : nat) :
  inquires E formData skip stored = false ->
  k < fuel ->
  (forall ds,
      fullResponse (fst (for_await ds locals0)) = EmptyString <-> silent ds) /\
  (k < List.length
         (calls_of Writer
            (trace (snd (submitUserInput E fuel formData skip
                                         (world0 stored)))))
   <-> forall j, j < k -> silent (fullStream E j)).
Proof.
  intros Hb Hk. split.
  - intros ds. unfold silent.
    rewrite for_await_fullResponse.
    cbn [locals0 fullResponse String.append].
    apply text_of_empty_iff.
  - destruct (generation_writer_calls E fuel formData skip stored Hb)
      as [[n [Hn [He [Hf ->]]]] | [He ->]].
    + split.
      * intros Hlt j Hj. apply attempt_text_empty_iff. apply He. lia.
      * intros Hs. destruct (Nat.lt_ge_cases k (S n)) as [Hlt | Hge];
          [assumption|].
        exfalso. apply Hf. apply attempt_text_empty_iff. apply Hs. lia.
    + split; [|intros _; exact Hk].
      intros _ j Hj. apply attempt_text_empty_iff. apply He. lia.
Qed.

Lemma retry_iff_silent_witness :
  (forall ds,
      fullResponse (fst (for_await ds locals0)) = EmptyString <-> silent ds) /\
  (2 < List.length
         (calls_of Writer
            (trace (snd (submitUserInput env_retry 5 (Some sample_form) false
                                         (world0 [])))))
   <-> forall j, j < 2 -> silent (fullStream env_retry j)).
Proof.
  apply (retry_iff_silent env_retry 5 (Some sample_form) false [] 2).
  - reflexivity.
  - lia.
Defined.
